(** * Resque autoscaler: a shallow embedding of [main.go] and its properties

    The program is a control loop.  Every [Interval] it counts the unfinished
    Resque jobs in redis, keeps the last [NumSamples] counts, averages them,
    turns the average into an instance count clamped to
    [[MinInstances, MaxInstances]], and sends that count to the scaling
    goroutine when it differs from the current one and the relevant delay
    since the last scaling event has passed.

    Conventions of the embedding:
    - Go's [int] and [int64] are 64-bit two's complement numbers, modelled as
      [Z] with the wrap-around of every addition written out ([wrap64]);
    - Go's [float64] is IEEE-754 binary64, modelled with the [spec_float]
      operations of the standard library at precision 53 and [emax] 1024
      (round to nearest, ties to even);
    - [time.Time] is a number of nanoseconds on one time line and
      [time.Duration] a number of nanoseconds, both in [Z];
    - the global [autoscaler] is an explicit record threaded through the
      functions; redis and the Render API are values the functions read;
      logging is the list of messages a function returns. *)

From Stdlib Require Import ZArith List Bool String Lia.
From Stdlib Require Import Floats.SpecFloat.
From Stdlib Require Import QArith Qround Qpower Lqa.
From Stdlib Require Import Permutation DecimalString DecimalZ.
Import ListNotations.

Local Open Scope string_scope.
Local Open Scope list_scope.
Local Open Scope Z_scope.

(** ** Machine integers *)

Definition min_int : Z := - 2 ^ 63.
Definition max_int : Z := 2 ^ 63 - 1.

(** The value an [int] holds after an operation whose exact result is [z]. *)
Definition wrap64 (z : Z) : Z := (z + 2 ^ 63) mod 2 ^ 64 - 2 ^ 63.

Definition add64 (a b : Z) : Z := wrap64 (a + b).

Definition in_int (z : Z) : Prop := min_int <= z <= max_int.

(** ** Binary64 numbers *)

Definition prec : Z := 53.
Definition emax : Z := 1024.

Definition float64 : Type := spec_float.

(** [float64(n)] for an integer [n]. *)
Definition float64_of_int (n : Z) : float64 := binary_normalize prec emax n 0 false.

(** [x / y] on [float64]. *)
Definition float64_div (x y : float64) : float64 := SFdiv prec emax x y.

(** [x > y] on [float64]; false when either side is a NaN. *)
Definition float64_gt (x y : float64) : bool := SFltb y x.

(** The integer part of a float, towards zero; [None] for NaN and the
    infinities. *)
Definition float64_trunc (x : float64) : option Z :=
  match x with
  | S754_zero _ => Some 0
  | S754_finite s m e =>
      Some (cond_Zopp s (if 0 <=? e then Zpos m * 2 ^ e else Zpos m / 2 ^ (- e)))
  | _ => None
  end.

(** [math.Ceil]: the least integral float not below [x]; NaN, the infinities
    and the zeros are returned as they are, and a negative number above [-1]
    gives the negative zero. *)
Definition float64_ceil (x : float64) : float64 :=
  match x with
  | S754_finite s m e =>
      if 0 <=? e then x
      else binary_normalize prec emax (- ((- cond_Zopp s (Zpos m)) / 2 ^ (- e))) 0 s
  | _ => x
  end.

(** ** Configuration and state *)

Record AutoscalerConfig : Type := {
  WorkerServiceId : string;
  RenderAPIKey : string;
  RedisAddress : string;
  MinInstances : Z;
  MaxInstances : Z;
  WorkersPerInstance : Z;
  Interval : Z;
  NumSamples : Z;
  ScaleUpDelay : Z;
  ScaleDownDelay : Z
}.

(** The [Autoscaler] struct without its redis client and context, which are
    passed to the functions that use them. *)
Record Autoscaler : Type := {
  config : AutoscalerConfig;
  instances : Z;
  lastScaleTime : Z;
  samples : list Z
}.

Definition set_samples (a : Autoscaler) (xs : list Z) : Autoscaler :=
  {| config := config a; instances := instances a;
     lastScaleTime := lastScaleTime a; samples := xs |}.

Definition set_scaled (a : Autoscaler) (n t : Z) : Autoscaler :=
  {| config := config a; instances := n; lastScaleTime := t; samples := samples a |}.

(** The options' defaults, as in the struct tags. *)
Definition default_config : AutoscalerConfig :=
  {| WorkerServiceId := "srv"; RenderAPIKey := "key"; RedisAddress := "redis:6379";
     MinInstances := 2; MaxInstances := 50; WorkersPerInstance := 1;
     Interval := 1000000000; NumSamples := 1;
     ScaleUpDelay := 60000000000; ScaleDownDelay := 600000000000 |}.

(** ** Redis, as go-redis presents it

    Every command returns a value and an error; [redis.Nil] is the error of a
    missing key. *)

Inductive redis_error : Type :=
  | RedisNil
  | RedisFailure (msg : string).

Record Redis : Type := {
  SMembers : string -> list string * option redis_error;
  Get : string -> string * option redis_error;
  LLen : string -> Z * option redis_error
}.

Definition is_nil (e : redis_error) : bool :=
  match e with RedisNil => true | RedisFailure _ => false end.

(** ** The Render API *)

Record APIResult : Type := {
  api_status : Z;
  api_body : string;
  api_err : option string
}.

Definition StatusOK : Z := 200.

(** ** The program *)

Section Program.

(** What [int(x)] gives for a float that no [int] represents (NaN, an infinity
    or a number out of range).  Go leaves this value to the implementation. *)
Variable int_indefinite : float64 -> Z.

(** [int(x)] for a [float64]. *)
Definition int_of_float64 (x : float64) : Z :=
  match float64_trunc x with
  | Some z => if (min_int <=? z) && (z <=? max_int) then z else int_indefinite x
  | None => int_indefinite x
  end.

(** [getInstanceCount], given the reply of [renderAPICall] and the number
    gjson reads in a body at a path (0 when the path is missing). *)
Definition getInstanceCount (cfg : AutoscalerConfig)
    (renderAPICall : string -> string -> string -> APIResult)
    (gjsonNum : string -> string -> float64) : Z * list string :=
  let path := String.append "/services/" (WorkerServiceId cfg) in
  let r := renderAPICall "GET" path "" in
  match api_err r with
  | Some _ => (MinInstances cfg, ["unable to retrieve current instance count"])
  | None =>
      if negb (api_status r =? StatusOK)
      then (MinInstances cfg, ["unable to retrieve current instance count"])
      else
        let count := gjsonNum (api_body r) "serviceDetails.numInstances" in
        if float64_gt count (S754_zero false)
        then (int_of_float64 count, [])
        else (MinInstances cfg, [])
  end.

(** [average]: the sum is an [int] accumulated in list order. *)
Definition average (xs : list Z) : float64 :=
  let sum := fold_left add64 xs 0 in
  float64_div (float64_of_int sum) (float64_of_int (Z.of_nat (List.length xs))).

(** [countActiveJobs]: one for each worker whose key can be read. *)
Fixpoint countActiveJobs_loop (r : Redis) (workers : list string) (jobs : Z)
    : Z * list string :=
  match workers with
  | [] => (jobs, [])
  | worker :: rest =>
      let workerKey := String.append "resque:worker:" worker in
      match snd (Get r workerKey) with
      | None => countActiveJobs_loop r rest (add64 jobs 1)
      | Some e =>
          let '(n, lg) := countActiveJobs_loop r rest jobs in
          if is_nil e then (n, lg)
          else (n, "unexpected error when getting resque worker from redis" :: lg)
      end
  end.

Definition countActiveJobs (r : Redis) : Z * list string :=
  let '(workers, err) := SMembers r "resque:workers" in
  let lg := match err with
            | Some _ => ["failed to retrieve resque worker set from redis"]
            | None => []
            end in
  let '(jobs, lg') := countActiveJobs_loop r workers 0 in
  (jobs, lg ++ lg').

(** [countPendingJobs]: the length read is added whether or not the read
    failed. *)
Fixpoint countPendingJobs_loop (r : Redis) (queues : list string) (jobs : Z)
    : Z * list string :=
  match queues with
  | [] => (jobs, [])
  | queue :: rest =>
      let queueKey := String.append "resque:queue:" queue in
      let '(len, err) := LLen r queueKey in
      let '(n, lg) := countPendingJobs_loop r rest (add64 jobs len) in
      match err with
      | Some _ => (n, "unexpected error when getting resque queue length" :: lg)
      | None => (n, lg)
      end
  end.

Definition countPendingJobs (r : Redis) : Z * list string :=
  let '(queues, err) := SMembers r "resque:queues" in
  let lg := match err with
            | Some _ => ["failed to retrieve resque queue set from redis"]
            | None => []
            end in
  let '(jobs, lg') := countPendingJobs_loop r queues 0 in
  (jobs, lg ++ lg').

(** The sample of one tick: [countActiveJobs() + countPendingJobs()]. *)
Definition sampleJobs (r : Redis) : Z * list string :=
  let '(active, lg1) := countActiveJobs r in
  let '(pending, lg2) := countPendingJobs r in
  (add64 active pending, lg1 ++ lg2).

(** [int(math.Ceil(avgNumJobs / float64(WorkersPerInstance)))]. *)
Definition rawDesiredInstances (cfg : AutoscalerConfig) (window : list Z) : Z :=
  let avgNumJobs := average window in
  int_of_float64
    (float64_ceil (float64_div avgNumJobs (float64_of_int (WorkersPerInstance cfg)))).

(** The two [if]s that bound [desiredInstances]. *)
Definition clampInstances (cfg : AutoscalerConfig) (n : Z) : Z :=
  let n1 := if n >? MaxInstances cfg then MaxInstances cfg else n in
  if n1 <? MinInstances cfg then MinInstances cfg else n1.

(** [now.After(lastScaleTime.Add(delay))]. *)
Definition after_delay (now last delay : Z) : bool := last + delay <? now.

(** The last part of [calculateDesiredInstances], from [now := time.Now()]. *)
Definition decide (a : Autoscaler) (desiredInstances now : Z) : Z :=
  let cfg := config a in
  if (desiredInstances >? instances a)
     && after_delay now (lastScaleTime a) (ScaleUpDelay cfg)
  then desiredInstances
  else if (desiredInstances <? instances a)
          && after_delay now (lastScaleTime a) (ScaleDownDelay cfg)
  then desiredInstances
  else instances a.

(** The test of the early return: not enough samples collected. *)
Definition notEnoughSamples (a : Autoscaler) : bool :=
  Z.of_nat (List.length (samples a)) <? NumSamples (config a).

(** [calculateDesiredInstances] once the sample [jobs] has been counted:
    the returned count and the state it leaves. *)
Definition calculateDesiredInstances_with (jobs now : Z) (a : Autoscaler)
    : Z * Autoscaler :=
  let cfg := config a in
  let a1 := set_samples a (samples a ++ [jobs]) in
  if notEnoughSamples a1
  then (instances a1, a1)
  else
    let a2 := if Z.of_nat (List.length (samples a1)) >? NumSamples cfg
              then set_samples a1 (tl (samples a1)) else a1 in
    let desiredInstances := clampInstances cfg (rawDesiredInstances cfg (samples a2)) in
    (decide a2 desiredInstances now, a2).

(** [calculateDesiredInstances]: [now] is what [time.Now()] returns. *)
Definition calculateDesiredInstances (r : Redis) (now : Z) (a : Autoscaler)
    : Z * Autoscaler * list string :=
  let '(jobs, lg) := sampleJobs r in
  (calculateDesiredInstances_with jobs now a, lg).

(** One turn of the loop of [calculateInstancesLoop]: the state after it, the
    value sent on the channel if any, and the messages logged.  [now] is the
    clock read in [calculateDesiredInstances] and [sent] the clock read after
    the send. *)
Definition calculateInstancesLoop_body (r : Redis) (now sent : Z) (a : Autoscaler)
    : Autoscaler * option Z * list string :=
  let '(n, a1, lg) := calculateDesiredInstances r now a in
  if negb (n =? instances a1)
  then (set_scaled a1 n sent, Some n, lg)
  else (a1, None, lg).

(** The same turn when the sample is given. *)
Definition calculateInstancesLoop_body_with (jobs now sent : Z) (a : Autoscaler)
    : Autoscaler * option Z :=
  let '(n, a1) := calculateDesiredInstances_with jobs now a in
  if negb (n =? instances a1)
  then (set_scaled a1 n sent, Some n)
  else (a1, None).

(** The state [init] builds, with the count [getInstanceCount] returned. *)
Definition init_autoscaler (cfg : AutoscalerConfig) (count : Z) : Autoscaler :=
  {| config := cfg; instances := count; lastScaleTime := 0; samples := [] |}.

(** [calculateInstancesLoop] over a finite run of turns, each with the redis
    it finds and its two clock readings: the state reached, the counts sent
    on the channel in order, and the messages logged. *)
Fixpoint calculateInstancesLoop (ticks : list (Redis * Z * Z)) (a : Autoscaler)
    : Autoscaler * list Z * list string :=
  match ticks with
  | [] => (a, [], [])
  | (r, now, sent) :: rest =>
      let '(a1, out, lg) := calculateInstancesLoop_body r now sent a in
      let '(a2, outs, lgs) := calculateInstancesLoop rest a1 in
      (a2, match out with Some n => n :: outs | None => outs end, lg ++ lgs)
  end.

(** The same run when the samples are given: the samples, the clock readings
    before the decision and the clock readings after the send. *)
Fixpoint calculateInstancesLoop_with (ticks : list (Z * Z * Z)) (a : Autoscaler)
    : Autoscaler :=
  match ticks with
  | [] => a
  | (jobs, now, sent) :: rest =>
      calculateInstancesLoop_with rest
        (fst (calculateInstancesLoop_body_with jobs now sent a))
  end.

(** ** Notions the properties are stated with *)

(** The samples a list of ticks pushes, oldest first. *)
Definition pushed (ticks : list (Z * Z * Z)) : list Z :=
  map (fun t => fst (fst t)) ticks.

(** The samples and clock readings of a run of turns with their redis. *)
Definition sampled (ticks : list (Redis * Z * Z)) : list (Z * Z * Z) :=
  map (fun t => (fst (sampleJobs (fst (fst t))), snd (fst t), snd t)) ticks.

(** The last [n] elements of a list. *)
Definition last_n {A : Type} (n : Z) (xs : list A) : list A :=
  skipn (List.length xs - Z.to_nat n) xs.

(** The window [calculateDesiredInstances] works on when the sample [jobs]
    arrives in state [a]. *)
Definition window_after (a : Autoscaler) (jobs : Z) : list Z :=
  samples (snd (calculateDesiredInstances_with jobs 0 a)).

(** The clamped count of the tick at which [jobs] arrives in state [a]. *)
Definition desired_at (a : Autoscaler) (jobs : Z) : Z :=
  clampInstances (config a) (rawDesiredInstances (config a) (window_after a jobs)).

(** The delay the decision to go from the current count to [d] waits for. *)
Definition delay_for (a : Autoscaler) (d : Z) : Z :=
  if d >? instances a then ScaleUpDelay (config a) else ScaleDownDelay (config a).

(** A float that is a zero, a NaN or negative: one that is not above zero. *)
Definition float64_not_positive (x : float64) : bool :=
  match x with
  | S754_zero _ | S754_nan => true
  | S754_infinity s | S754_finite s _ _ => s
  end.

(** A worker whose key was read: it holds a job. *)
Definition lease_present (r : Redis) (worker : string) : bool :=
  match snd (Get r (String.append "resque:worker:" worker)) with
  | None => true
  | Some _ => false
  end.

(** The workers redis lists, and among them those that hold a job. *)
Definition registered_workers (r : Redis) : list string :=
  fst (SMembers r "resque:workers").

Definition active_jobs (r : Redis) : Z :=
  Z.of_nat (List.length (filter (lease_present r) (registered_workers r))).

(** The length of a queue when it could be read, 0 when it could not. *)
Definition retrievable_length (r : Redis) (queue : string) : Z :=
  match LLen r (String.append "resque:queue:" queue) with
  | (len, None) => len
  | (_, Some _) => 0
  end.

Definition registered_queues (r : Redis) : list string :=
  fst (SMembers r "resque:queues").

Definition pending_jobs (r : Redis) : Z :=
  fold_right Z.add 0 (map (retrievable_length r) (registered_queues r)).

(** The reads that failed: a set that could not be listed, a worker key read
    with an error other than [redis.Nil], a queue whose length could not be
    read. *)
Definition set_failed (r : Redis) (key : string) : bool :=
  match snd (SMembers r key) with Some _ => true | None => false end.

Definition get_failed (r : Redis) (worker : string) : bool :=
  match snd (Get r (String.append "resque:worker:" worker)) with
  | Some e => negb (is_nil e)
  | None => false
  end.

Definition llen_failed (r : Redis) (queue : string) : bool :=
  match snd (LLen r (String.append "resque:queue:" queue)) with
  | Some _ => true
  | None => false
  end.

Definition failed_reads (r : Redis) : nat :=
  ((if set_failed r "resque:workers" then 1 else 0)
   + List.length (filter (get_failed r) (registered_workers r))
   + (if set_failed r "resque:queues" then 1 else 0)
   + List.length (filter (llen_failed r) (registered_queues r)))%nat.

(** go-redis returns the zero value together with an error. *)
Definition zero_on_error (r : Redis) : Prop :=
  forall (key : string) (len : Z) (e : redis_error), LLen r key = (len, Some e) -> len = 0.

(** The number a finite positive float with mantissa [m] and exponent [e]
    stands for. *)
Definition val (m : positive) (e : Z) : Q := (inject_Z (Z.pos m) * 2 ^ e)%Q.

(** The sum of a window, as an integer without bound. *)
Definition sum_list (xs : list Z) : Z := fold_right Z.add 0 xs.

(** The arithmetic mean of a window as a rational number, and the count
    before clamping the specification describes: the ceiling of that mean
    divided by the number of workers per instance. *)
Definition exact_mean (xs : list Z) : Q :=
  (inject_Z (sum_list xs) / inject_Z (Z.of_nat (List.length xs)))%Q.

Definition exact_raw_desired (cfg : AutoscalerConfig) (xs : list Z) : Z :=
  Qceiling (exact_mean xs / inject_Z (WorkersPerInstance cfg)).

(** ** The scaling goroutine *)

Definition StatusAccepted : Z := 202.

(** [fmt.Sprintf] of an [int] with the verb [%d]: its decimal digits, after
    a minus sign when it is negative. *)
Definition format_int (n : Z) : string := NilZero.string_of_int (Z.to_int n).

(** The string made of one double quote. *)
Definition double_quote : string := String (Ascii.ascii_of_nat 34) EmptyString.

(** A call of [renderAPICall]: method, path and body. *)
Record APIRequest : Type := {
  req_method : string;
  req_path : string;
  req_body : string
}.

(** The path and the body [updateNumInstances] builds. *)
Definition scale_path (cfg : AutoscalerConfig) : string :=
  String.append "/services/" (String.append (WorkerServiceId cfg) "/scale").

Definition scale_body (n : Z) : string :=
  String.append "{"
    (String.append double_quote
       (String.append "numInstances"
          (String.append double_quote
             (String.append ": " (String.append (format_int n) "}"))))).

Definition scale_request (cfg : AutoscalerConfig) (n : Z) : APIRequest :=
  {| req_method := "POST"; req_path := scale_path cfg; req_body := scale_body n |}.

(** [updateNumInstances]: the call made and the messages logged. *)
Definition updateNumInstances (cfg : AutoscalerConfig)
    (renderAPICall : string -> string -> string -> APIResult) (n : Z)
    : APIRequest * list string :=
  let started := String.append "scaling to " (String.append (format_int n) " instances") in
  let path := scale_path cfg in
  let body := scale_body n in
  let r := renderAPICall "POST" path body in
  let failed := String.append "failed to scale to "
                  (String.append (format_int n) " instances") in
  ({| req_method := "POST"; req_path := path; req_body := body |},
   match api_err r with
   | Some _ => [started; failed]
   | None => if negb (api_status r =? StatusAccepted) then [started; failed] else [started]
   end).

(** [scaleWorkersLoop] over the counts it receives, each with the Render API
    as it answers at that moment: the calls made, in order, and the messages
    logged. *)
Fixpoint scaleWorkersLoop (cfg : AutoscalerConfig)
    (received : list (Z * (string -> string -> string -> APIResult)))
    : list APIRequest * list string :=
  match received with
  | [] => ([], [])
  | (desiredInstances, api) :: rest =>
      let '(req, lg) := updateNumInstances cfg api desiredInstances in
      let '(reqs, lgs) := scaleWorkersLoop cfg rest in
      (req :: reqs, lg ++ lgs)
  end.

(** ** Notions the further properties are stated with *)

(** The turns of a run that sent a count, each with the count, the clock read
    before the decision and the clock read after the send. *)
Fixpoint emissions (ticks : list (Redis * Z * Z)) (a : Autoscaler) : list (Z * Z * Z) :=
  match ticks with
  | [] => []
  | (r, now, sent) :: rest =>
      let '(a1, out, _) := calculateInstancesLoop_body r now sent a in
      match out with
      | Some n => (n, now, sent) :: emissions rest a1
      | None => emissions rest a1
      end
  end.

(** Each emission is decided more than [gap] after the previous scaling
    event, the first one more than [gap] after [last]. *)
Fixpoint spaced (gap last : Z) (es : list (Z * Z * Z)) : Prop :=
  match es with
  | [] => True
  | (_, now, sent) :: rest => last + gap < now /\ spaced gap sent rest
  end.

(** Each count of a list differs from the one before it, the first one from
    [prev]. *)
Fixpoint changes (prev : Z) (outs : list Z) : Prop :=
  match outs with
  | [] => True
  | n :: rest => n <> prev /\ changes n rest
  end.

(** The sum of what [LLen] returned for the registered queues, read or not. *)
Definition returned_lengths (r : Redis) : Z :=
  sum_list (map (fun q => fst (LLen r (String.append "resque:queue:" q)))
              (registered_queues r)).



(** The ceiling of [s / d] for a positive [d]. *)
Definition ceil_div (s d : Z) : Z := - ((- s) / d).

(** Whether a reply of the Render API to a scaling request counts as a
    failure. *)
Definition scale_failed (r : APIResult) : bool :=
  match api_err r with
  | Some _ => true
  | None => negb (api_status r =? StatusAccepted)
  end.

(** ** Concrete inputs *)

(** A redis with three workers, of which one holds a job, one has no key and
    one cannot be read, and two queues, of which one cannot be read. *)
Definition redis_example : Redis :=
  {| SMembers := fun key =>
       if String.eqb key "resque:workers" then (["w1"; "w2"; "w3"], None)
       else if String.eqb key "resque:queues" then (["high"; "low"], None)
       else ([], Some RedisNil);
     Get := fun key =>
       if String.eqb key "resque:worker:w1" then ("job", None)
       else if String.eqb key "resque:worker:w2" then ("", Some RedisNil)
       else ("", Some (RedisFailure "i/o timeout"));
     LLen := fun key =>
       if String.eqb key "resque:queue:high" then (5, None)
       else (0, Some (RedisFailure "i/o timeout")) |}.

(** The conversion of the amd64 compiler: the "integer indefinite" value. *)
Definition amd64_indefinite (_ : float64) : Z := min_int.

(** The state after [init] with the default options and two live instances. *)
Definition fresh : Autoscaler :=
  {| config := default_config; instances := 2; lastScaleTime := 0; samples := [] |}.

(** Options with a window of three samples and two workers per instance. *)
Definition config3 : AutoscalerConfig :=
  {| WorkerServiceId := "srv"; RenderAPIKey := "key"; RedisAddress := "redis:6379";
     MinInstances := 2; MaxInstances := 50; WorkersPerInstance := 2;
     Interval := 1000000000; NumSamples := 3;
     ScaleUpDelay := 60000000000; ScaleDownDelay := 600000000000 |}.

(** The default options with [MIN_INSTANCES=0], which [init] accepts. *)
Definition config_min0 : AutoscalerConfig :=
  {| WorkerServiceId := "srv"; RenderAPIKey := "key"; RedisAddress := "redis:6379";
     MinInstances := 0; MaxInstances := 50; WorkersPerInstance := 1;
     Interval := 1000000000; NumSamples := 1;
     ScaleUpDelay := 60000000000; ScaleDownDelay := 600000000000 |}.

(** A Render API that cannot be reached, one that answers 503, and one that
    answers 200 with a body in which gjson reads the number [x]. *)
Definition api_unreachable (_ _ _ : string) : APIResult :=
  {| api_status := 0; api_body := ""; api_err := Some "dial tcp: timeout" |}.

Definition api_unavailable (_ _ _ : string) : APIResult :=
  {| api_status := 503; api_body := ""; api_err := None |}.

Definition api_ok (_ _ _ : string) : APIResult :=
  {| api_status := 200; api_body := "{}"; api_err := None |}.

Definition gjson_const (x : float64) (_ _ : string) : float64 := x.

(** One half, [float64(1) / float64(2)]. *)
Definition one_half : float64 := S754_finite false 4503599627370496 (-53).

(** The redis of the example with its sets listed in another order. *)
Definition redis_example_reordered : Redis :=
  {| SMembers := fun key =>
       if String.eqb key "resque:workers" then (["w3"; "w1"; "w2"], None)
       else if String.eqb key "resque:queues" then (["low"; "high"], None)
       else ([], Some RedisNil);
     Get := Get redis_example;
     LLen := LLen redis_example |}.



(** A redis that cannot be reached: go-redis returns no names and an error. *)
Definition redis_down : Redis :=
  {| SMembers := fun _ => ([], Some (RedisFailure "dial tcp: connection refused"));
     Get := fun _ => ("", Some (RedisFailure "dial tcp: connection refused"));
     LLen := fun _ => (0, Some (RedisFailure "dial tcp: connection refused")) |}.

(** A Render API that accepts a scaling request. *)
Definition api_accepted (_ _ _ : string) : APIResult :=
  {| api_status := 202; api_body := ""; api_err := None |}.

(** Options with the bounds in the wrong order. *)
Definition config_crossed : AutoscalerConfig :=
  {| WorkerServiceId := "srv"; RenderAPIKey := "key"; RedisAddress := "redis:6379";
     MinInstances := 5; MaxInstances := 3; WorkersPerInstance := 1;
     Interval := 1000000000; NumSamples := 1;
     ScaleUpDelay := 60000000000; ScaleDownDelay := 600000000000 |}.

(** The default options with [NUM_SAMPLES=0]. *)
Definition config_nosamples : AutoscalerConfig :=
  {| WorkerServiceId := "srv"; RenderAPIKey := "key"; RedisAddress := "redis:6379";
     MinInstances := 2; MaxInstances := 50; WorkersPerInstance := 1;
     Interval := 1000000000; NumSamples := 0;
     ScaleUpDelay := 60000000000; ScaleDownDelay := 600000000000 |}.

(** The default options with [WORKERS_PER_INSTANCE=0]. *)
Definition config_noworkers : AutoscalerConfig :=
  {| WorkerServiceId := "srv"; RenderAPIKey := "key"; RedisAddress := "redis:6379";
     MinInstances := 2; MaxInstances := 50; WorkersPerInstance := 0;
     Interval := 1000000000; NumSamples := 1;
     ScaleUpDelay := 60000000000; ScaleDownDelay := 600000000000 |}.

(** A redis with no worker at work and four jobs in its one queue. *)
Definition redis_four : Redis :=
  {| SMembers := fun key =>
       if String.eqb key "resque:queues" then (["default"], None) else ([], None);
     Get := fun _ => ("", Some RedisNil);
     LLen := fun _ => (4, None) |}.

(** The state a steady backlog of four jobs leads to with a window of three
    samples and two workers per instance. *)
Definition steady : Autoscaler :=
  {| config := config3; instances := 2; lastScaleTime := 0; samples := [4; 4; 4] |}.

End Program.

(** Closed statements are settled by evaluation. *)
Ltac by_compute :=
  vm_compute;
  repeat match goal with |- _ /\ _ => split end;
  first [ reflexivity | discriminate | intro; discriminate ].

(** * Properties *)

(** ** Machine integers *)

Lemma wrap64_small (z : Z) : in_int z -> wrap64 z = z.
Proof.
  unfold in_int, min_int, max_int, wrap64. intros H.
  rewrite Z.mod_small; lia.
Qed.

Lemma add64_small (a b : Z) : in_int (a + b) -> add64 a b = a + b.
Proof. apply wrap64_small. Qed.

(** ** Binary64 arithmetic

    What the proofs need of the division of the standard library's
    specification of IEEE-754: on normal operands it yields a normal float
    within half a unit in the last place of the exact quotient.  Values are
    compared as rational numbers. *)

(** The number of binary digits of a positive number. *)
Lemma digits2_pos_size (p : positive) : digits2_pos p = Pos.size p.
Proof. induction p; cbn; congruence. Qed.

Lemma digits2_pos_bounds (p : positive) :
  2 ^ (Z.pos (digits2_pos p) - 1) <= Z.pos p < 2 ^ Z.pos (digits2_pos p).
Proof.
  rewrite digits2_pos_size. split.
  - pose proof (Pos.size_le p) as H.
    apply Pos2Z.pos_le_pos in H. rewrite Pos2Z.inj_pow in H.
    replace (Z.pos (Pos.size p)) with (Z.succ (Z.pos (Pos.size p) - 1)) in H by lia.
    rewrite Z.pow_succ_r in H by lia. lia.
  - pose proof (Pos.size_gt p) as H.
    apply Pos2Z.pos_lt_pos in H. rewrite Pos2Z.inj_pow in H. exact H.
Qed.

(** A number between [2^(d-1)] and [2^d] has [d] digits. *)
Lemma Zdigits2_unique (z d : Z) :
  2 ^ (d - 1) <= z < 2 ^ d -> 0 < d -> Zdigits2 z = d.
Proof.
  intros [Hlo Hhi] Hd.
  assert (0 < z) by (pose proof (Z.pow_pos_nonneg 2 (d - 1)); lia).
  destruct z as [|p|p]; try lia. cbn [Zdigits2].
  pose proof (digits2_pos_bounds p) as [Hl Hh].
  destruct (Z.lt_trichotomy (Z.pos (digits2_pos p)) d) as [Hc|[Hc|Hc]]; [|exact Hc|].
  - assert (2 ^ Z.pos (digits2_pos p) <= 2 ^ (d - 1)) by (apply Z.pow_le_mono_r; lia). lia.
  - assert (2 ^ d <= 2 ^ (Z.pos (digits2_pos p) - 1)) by (apply Z.pow_le_mono_r; lia). lia.
Qed.

(** Rounding to nearest even a mantissa of 53 bits with its location: the
    mantissa or its successor, renormalised when the successor is [2^53]. *)
Lemma round_aux_53 (sx : bool) (q : positive) (E : Z) (loc : location) :
  2 ^ 52 <= Z.pos q < 2 ^ 53 -> -1074 <= E <= 970 ->
  binary_round_aux prec emax sx (Z.pos q) E loc =
    let m1 := round_nearest_even (Z.pos q) loc in
    if m1 <? 2 ^ 53 then S754_finite sx (Z.to_pos m1) E
    else S754_finite sx (Z.to_pos (2 ^ 52)) (E + 1).
Proof.
  intros Hq HE.
  unfold binary_round_aux, shr_fexp.
  rewrite (Zdigits2_unique (Z.pos q) 53) by lia.
  replace (fexp prec emax (53 + E) - E) with 0 by (unfold fexp, emin, prec, emax; lia).
  cbn [shr].
  assert (Hloc : loc_of_shr_record (shr_record_of_loc (Z.pos q) loc) = loc)
    by (destruct loc as [|[| |]]; reflexivity).
  assert (Hm : shr_m (shr_record_of_loc (Z.pos q) loc) = Z.pos q)
    by (destruct loc as [|[| |]]; reflexivity).
  rewrite Hloc, Hm.
  set (m1 := round_nearest_even (Z.pos q) loc).
  assert (Hm1 : Z.pos q <= m1 <= Z.pos q + 1).
  { unfold m1, round_nearest_even. destruct loc as [|[| |]]; try lia. destruct (Z.even _); lia. }
  cbv zeta.
  destruct (Z.ltb_spec m1 (2 ^ 53)) as [Hlt|Hge].
  - rewrite (Zdigits2_unique m1 53) by lia.
    replace (fexp prec emax (53 + E) - E) with 0 by (unfold fexp, emin, prec, emax; lia).
    cbn [shr shr_record_of_loc shr_m].
    destruct m1 as [|p|p]; try lia.
    replace (E <=? emax - prec) with true by (symmetry; apply Z.leb_le; unfold emax, prec; lia).
    reflexivity.
  - assert (m1 = 2 ^ 53) by lia.
    rewrite H.
    replace (fexp prec emax (Zdigits2 (2 ^ 53) + E) - E) with 1
      by (change (Zdigits2 (2 ^ 53)) with 54; unfold fexp, emin, prec, emax; lia).
    cbn.
    replace (E + 1 <=? 971) with true by (symmetry; apply Z.leb_le; lia).
    reflexivity.
Qed.

(** One shift to the right halves the mantissa and keeps track of what was
    lost. *)
Lemma shr_1_pos (q : positive) (loc : location) :
  shr_m (shr_1 (shr_record_of_loc (Z.pos q) loc)) = Z.pos q / 2
  /\ loc_of_shr_record (shr_1 (shr_record_of_loc (Z.pos q) loc)) =
     match Z.odd (Z.pos q), loc with
     | false, loc_Exact => loc_Exact
     | false, loc_Inexact _ => loc_Inexact Lt
     | true, loc_Exact => loc_Inexact Eq
     | true, loc_Inexact _ => loc_Inexact Gt
     end.
Proof.
  destruct q as [p|p|]; destruct loc as [|[| |]]; cbn [shr_record_of_loc shr_1 shr_m loc_of_shr_record orb Z.odd];
    (split; [|reflexivity]).
  all: try (rewrite Pos2Z.inj_xI; apply Z.div_unique with (r := 1); lia).
  all: try (rewrite Pos2Z.inj_xO; apply Z.div_unique with (r := 0); lia).
  all: reflexivity.
Qed.

(** Rounding a mantissa of 54 bits: one shift, then as for 53 bits. *)
Lemma round_aux_54 (sx : bool) (q : positive) (E : Z) (loc : location) :
  2 ^ 53 <= Z.pos q < 2 ^ 54 -> -1075 <= E <= 969 ->
  binary_round_aux prec emax sx (Z.pos q) E loc =
    let loc' := loc_of_shr_record (shr_1 (shr_record_of_loc (Z.pos q) loc)) in
    let m1 := round_nearest_even (Z.pos q / 2) loc' in
    if m1 <? 2 ^ 53 then S754_finite sx (Z.to_pos m1) (E + 1)
    else S754_finite sx (Z.to_pos (2 ^ 52)) (E + 2).
Proof.
  intros Hq HE.
  unfold binary_round_aux, shr_fexp.
  rewrite (Zdigits2_unique (Z.pos q) 54) by lia.
  replace (fexp prec emax (54 + E) - E) with 1 by (unfold fexp, emin, prec, emax; lia).
  cbn [shr SpecFloat.iter_pos].
  destruct (shr_1_pos q loc) as [Hm Hl]. rewrite Hm.
  set (loc' := loc_of_shr_record _).
  set (m1 := round_nearest_even (Z.pos q / 2) loc').
  assert (Hq2 : 2 ^ 52 <= Z.pos q / 2 < 2 ^ 53).
  { split; [apply Z.div_le_lower_bound | apply Z.div_lt_upper_bound]; lia. }
  assert (Hm1 : Z.pos q / 2 <= m1 <= Z.pos q / 2 + 1).
  { unfold m1, round_nearest_even. destruct loc' as [|[| |]]; try lia. destruct (Z.even _); lia. }
  cbv zeta.
  destruct (Z.ltb_spec m1 (2 ^ 53)) as [Hlt|Hge].
  - rewrite (Zdigits2_unique m1 53) by lia.
    replace (fexp prec emax (53 + (E + 1)) - (E + 1)) with 0 by (unfold fexp, emin, prec, emax; lia).
    cbn [shr shr_record_of_loc shr_m].
    destruct m1 as [|p|p]; try lia.
    replace (E + 1 <=? emax - prec) with true by (symmetry; apply Z.leb_le; unfold emax, prec; lia).
    reflexivity.
  - assert (m1 = 2 ^ 53) by lia.
    rewrite H.
    replace (fexp prec emax (Zdigits2 (2 ^ 53) + (E + 1)) - (E + 1)) with 1
      by (change (Zdigits2 (2 ^ 53)) with 54; unfold fexp, emin, prec, emax; lia).
    cbn.
    replace (E + 1 + 1 <=? 971) with true by (symmetry; apply Z.leb_le; lia).
    replace (E + 1 + 1) with (E + 2) by lia.
    reflexivity.
Qed.

(** The location of a remainder [r] of a division by [d]: where [r / d] lies
    with respect to one half. *)
Lemma new_location_spec (d r : Z) :
  0 < d -> 0 <= r < d ->
  new_location d r = if r =? 0 then loc_Exact else loc_Inexact (2 * r ?= d).
Proof.
  intros Hd Hr. unfold new_location, new_location_even, new_location_odd.
  destruct (Z.even d) eqn:Hev; [reflexivity|].
  destruct (r =? 0); [reflexivity|]. f_equal.
  assert (Hodd : Z.odd d = true) by (rewrite <- Z.negb_even, Hev; reflexivity).
  apply Z.odd_spec in Hodd. destruct Hodd as [k Hk].
  destruct (Z.compare_spec (2 * r + 1) d); destruct (Z.compare_spec (2 * r) d); try reflexivity; lia.
Qed.

(** The quotient of two normal floats is a normal float within half a unit
    in the last place of the exact quotient.  [j] is the number of bits the
    quotient of the mantissas was shifted by. *)
Lemma SFdiv_normal (sx sy : bool) (mx my : positive) (ex ey : Z) :
  2 ^ 52 <= Z.pos mx < 2 ^ 53 -> 2 ^ 52 <= Z.pos my < 2 ^ 53 ->
  -1000 <= ex - ey <= 900 ->
  exists (m : positive) (j : Z),
    SFdiv prec emax (S754_finite sx mx ex) (S754_finite sy my ey)
      = S754_finite (xorb sx sy) m (ex - ey - 53 + j)
    /\ 0 <= j <= 2
    /\ 2 ^ 52 <= Z.pos m < 2 ^ 53
    /\ Z.abs (2 * (2 ^ j * Z.pos m * Z.pos my - Z.pos mx * 2 ^ 53)) <= 2 ^ j * Z.pos my.
Proof.
  intros Hx Hy He.
  unfold SFdiv, SFdiv_core_binary.
  rewrite (Zdigits2_unique (Z.pos mx) 53), (Zdigits2_unique (Z.pos my) 53) by lia.
  replace (Z.min (fexp prec emax (53 + ex - (53 + ey))) (ex - ey)) with (ex - ey - 53)
    by (unfold fexp, emin, prec, emax; lia).
  replace (ex - ey - (ex - ey - 53)) with 53 by lia.
  rewrite Z.shiftl_mul_pow2 by lia.
  set (E := ex - ey - 53).
  pose proof (Z_div_mod (Z.pos mx * 2 ^ 53) (Z.pos my) ltac:(lia)) as Hdm.
  destruct (Z.div_eucl (Z.pos mx * 2 ^ 53) (Z.pos my)) as [q r].
  destruct Hdm as [Hdm Hr].
  rewrite (new_location_spec (Z.pos my) r ltac:(lia) Hr).
  assert (Hq : 2 ^ 52 <= q < 2 ^ 54).
  { split.
    - destruct (Z.le_gt_cases (2 ^ 52) q) as [|Hc]; [assumption|exfalso].
      assert (Z.pos my * (q + 1) <= Z.pos my * 2 ^ 52) by (apply Z.mul_le_mono_nonneg_l; lia).
      lia.
    - destruct (Z.lt_ge_cases q (2 ^ 54)) as [|Hc]; [assumption|exfalso].
      assert (Z.pos my * 2 ^ 54 <= Z.pos my * q) by (apply Z.mul_le_mono_nonneg_l; lia).
      lia. }
  destruct q as [|q|q]; try lia.
  destruct (Z.ltb_spec (Z.pos q) (2 ^ 53)) as [Hlt|Hge].
  - rewrite round_aux_53 by (unfold E; lia). cbv zeta.
    set (loc := if r =? 0 then _ else _).
    set (m1 := round_nearest_even (Z.pos q) loc).
    assert (Hm1 : Z.pos q <= m1 <= Z.pos q + 1
                  /\ Z.abs (2 * (m1 * Z.pos my - Z.pos mx * 2 ^ 53)) <= Z.pos my).
    { unfold m1, loc, round_nearest_even.
      destruct (Z.eqb_spec r 0); [lia|].
      destruct (Z.compare_spec (2 * r) (Z.pos my)); [destruct (Z.even _)| |]; lia. }
    destruct Hm1 as [Hm1 Herr].
    destruct (Z.ltb_spec m1 (2 ^ 53)).
    + exists (Z.to_pos m1), 0. rewrite Z2Pos.id by lia.
      replace (E + 0) with E by lia. repeat split; try lia.
    + exists (Z.to_pos (2 ^ 52)), 1. assert (m1 = 2 ^ 53) by lia. subst m1.
      repeat split; try (change (Z.pos (Z.to_pos (2 ^ 52))) with (2 ^ 52)); lia.
  - rewrite round_aux_54 by (unfold E; lia). cbv zeta.
    destruct (shr_1_pos q (if r =? 0 then loc_Exact else loc_Inexact (2 * r ?= Z.pos my))) as [_ ->].
    set (loc' := match Z.odd (Z.pos q) with true => _ | false => _ end).
    set (m1 := round_nearest_even (Z.pos q / 2) loc').
    assert (Hq2 : 2 ^ 52 <= Z.pos q / 2 < 2 ^ 53).
    { split; [apply Z.div_le_lower_bound | apply Z.div_lt_upper_bound]; lia. }
    assert (Hm1 : Z.pos q / 2 <= m1 <= Z.pos q / 2 + 1
                  /\ Z.abs (2 * m1 * Z.pos my - Z.pos mx * 2 ^ 53) <= Z.pos my).
    { unfold m1, loc', round_nearest_even.
      pose proof (Z.div_mod (Z.pos q) 2 ltac:(lia)) as Hq'.
      rewrite Zmod_odd in Hq'.
      destruct (Z.odd (Z.pos q)); destruct (Z.eqb_spec r 0); try destruct (Z.even _); nia. }
    destruct Hm1 as [Hm1 Herr].
    destruct (Z.ltb_spec m1 (2 ^ 53)).
    + exists (Z.to_pos m1), 1. rewrite Z2Pos.id by lia.
      repeat split; try lia.
    + exists (Z.to_pos (2 ^ 52)), 2. assert (m1 = 2 ^ 53) by lia. subst m1.
      repeat split; try (change (Z.pos (Z.to_pos (2 ^ 52))) with (2 ^ 52)); lia.
Qed.


Lemma pow2_pos (e : Z) : (0 < 2 ^ e)%Q.
Proof. apply Qpower_0_lt. reflexivity. Qed.

Lemma pow2_add (a b : Z) : (2 ^ (a + b) == 2 ^ a * 2 ^ b)%Q.
Proof. apply Qpower_plus. discriminate. Qed.

Lemma pow2_Z (t : Z) : 0 <= t -> (2 ^ t == inject_Z (2 ^ t))%Q.
Proof. intros H. rewrite Zpower_Qpower by exact H. reflexivity. Qed.

Lemma val_pos (m : positive) (e : Z) : (0 < val m e)%Q.
Proof.
  unfold val. apply Qmult_lt_0_compat; [|apply pow2_pos].
  change 0%Q with (inject_Z 0). rewrite <- Zlt_Qlt. lia.
Qed.

(** The same in rational numbers: the rounded quotient times the divisor is
    within half a unit in the last place, times the divisor, of the dividend. *)
Lemma SFdiv_normal_Q (sx sy : bool) (mx my : positive) (ex ey : Z) :
  2 ^ 52 <= Z.pos mx < 2 ^ 53 -> 2 ^ 52 <= Z.pos my < 2 ^ 53 ->
  -1000 <= ex - ey <= 900 ->
  exists (m : positive) (e : Z),
    SFdiv prec emax (S754_finite sx mx ex) (S754_finite sy my ey)
      = S754_finite (xorb sx sy) m e
    /\ ex - ey - 53 <= e <= ex - ey - 51
    /\ 2 ^ 52 <= Z.pos m < 2 ^ 53
    /\ (val mx ex - 2 ^ e * (1 # 2) * val my ey <= val m e * val my ey)%Q
    /\ (val m e * val my ey <= val mx ex + 2 ^ e * (1 # 2) * val my ey)%Q.
Proof.
  intros Hx Hy He.
  destruct (SFdiv_normal sx sy mx my ex ey Hx Hy He) as (m & j & Hdiv & Hj & Hm & Herr).
  exists m, (ex - ey - 53 + j). split; [exact Hdiv|]. split; [lia|]. split; [exact Hm|].
  apply Z.abs_le in Herr. destruct Herr as [Hlo Hhi].
  unfold Z.sub in Hlo, Hhi.
  rewrite Zle_Qle in Hlo; rewrite Zle_Qle in Hhi.
  repeat (rewrite inject_Z_mult in Hlo || rewrite inject_Z_plus in Hlo || rewrite inject_Z_opp in Hlo).
  repeat (rewrite inject_Z_mult in Hhi || rewrite inject_Z_plus in Hhi || rewrite inject_Z_opp in Hhi).
  rewrite <- (pow2_Z j) in Hlo by lia. rewrite <- (pow2_Z j) in Hhi by lia.
  unfold val.
  set (U := (2 ^ (ex - ey - 53 + j))%Q).
  set (P := (2 ^ (ex - 53))%Q).
  set (J := (2 ^ j)%Q) in *.
  assert (HP : (0 < P)%Q) by apply pow2_pos.
  assert (H1 : (U * 2 ^ ey == P * J)%Q).
  { unfold U, P, J. rewrite <- !pow2_add. replace (ex - ey - 53 + j + ey) with (ex - 53 + j) by lia. reflexivity. }
  assert (H2 : (2 ^ ex == P * inject_Z (2 ^ 53))%Q).
  { unfold P. rewrite <- (pow2_Z 53) by lia. rewrite <- pow2_add. replace (ex - 53 + 53) with ex by lia. reflexivity. }
  set (a := inject_Z (Z.pos m)) in *. set (b := inject_Z (Z.pos my)) in *.
  set (c := inject_Z (Z.pos mx)) in *. set (K := inject_Z (2 ^ 53)) in *.
  assert (E1 : (a * U * (b * 2 ^ ey) == P * (J * a * b))%Q).
  { transitivity (a * b * (U * 2 ^ ey))%Q; [ring|]. rewrite H1. ring. }
  assert (E2 : (c * 2 ^ ex == P * (c * K))%Q) by (rewrite H2; ring).
  assert (E3 : (U * (1 # 2) * (b * 2 ^ ey) == P * (J * b) * (1 # 2))%Q).
  { transitivity ((1 # 2) * b * (U * 2 ^ ey))%Q; [ring|]. rewrite H1. ring. }
  rewrite E1, E2, E3.
  assert (G1 : (P * (- (J * b)) <= P * (inject_Z 2 * (J * a * b + - (c * K))))%Q)
    by (apply Qmult_le_l; assumption).
  assert (G2 : (P * (inject_Z 2 * (J * a * b + - (c * K))) <= P * (J * b))%Q)
    by (apply Qmult_le_l; assumption).
  change (inject_Z 2) with 2%Q in G1, G2.
  split; lra.
Qed.

(** A float of exponent [-t] is its mantissa over [2^t]. *)
Lemma val_scaled (m : positive) (t : Z) :
  0 <= t -> (val m (- t) * inject_Z (2 ^ t) == inject_Z (Z.pos m))%Q.
Proof.
  intros Ht. unfold val. rewrite <- (pow2_Z t) by exact Ht.
  rewrite <- Qmult_assoc, <- pow2_add. replace (- t + t) with 0 by lia.
  change (2 ^ 0)%Q with 1%Q. ring.
Qed.

Lemma pow2_ge_1 (e : Z) : 0 <= e -> (1 <= 2 ^ e)%Q.
Proof.
  intros He. change 1%Q with (2 ^ 0)%Q. apply Qpower_le_compat_l; [exact He|]. discriminate.
Qed.

Lemma pow2_ge_2 (e : Z) : 1 <= e -> (2 <= 2 ^ e)%Q.
Proof.
  intros He. change 2%Q with (2 ^ 1)%Q at 1. apply Qpower_le_compat_l; [exact He|]. discriminate.
Qed.

Lemma val_lower (m : positive) (e : Z) :
  2 ^ 52 <= Z.pos m -> (inject_Z (2 ^ 52) * 2 ^ e <= val m e)%Q.
Proof.
  intros Hm. unfold val. apply Qmult_le_compat_r; [|apply Qlt_le_weak, pow2_pos].
  rewrite <- Zle_Qle. exact Hm.
Qed.

(** A rounded value does not pass an integer the exact value does not pass. *)
Lemma round_below_int (m : positive) (e K : Z) (x y : Q) :
  2 ^ 52 <= Z.pos m < 2 ^ 53 -> (0 < y)%Q ->
  (val m e * y <= x + 2 ^ e * (1 # 2) * y)%Q ->
  (x <= inject_Z K * y)%Q ->
  0 <= K <= 2 ^ 53 - 2 ->
  (val m e <= inject_Z K)%Q.
Proof.
  intros Hm Hy Herr Hx HK.
  assert (H : (val m e - 2 ^ e * (1 # 2) <= inject_Z K)%Q).
  { apply (Qmult_le_r _ _ y Hy). lra. }
  destruct (Qlt_le_dec (inject_Z K) (val m e)) as [Hc|Hc]; [exfalso|exact Hc].
  pose proof (pow2_pos e) as HU.
  destruct (Z.le_gt_cases 1 e) as [He|He].
  - pose proof (pow2_ge_2 e He) as H2. pose proof (val_lower m e ltac:(lia)) as Hl.
    assert (HK' : (inject_Z K <= inject_Z (2 ^ 53 - 2))%Q) by (rewrite <- Zle_Qle; lia).
    change (inject_Z (2 ^ 52)) with (4503599627370496%Q) in Hl.
    change (inject_Z (2 ^ 53 - 2)) with (9007199254740990%Q) in HK'.
    lra.
  - set (t := - e). assert (Ht : 0 <= t) by (unfold t; lia).
    pose proof (val_scaled m t Ht) as Hs. replace (- t) with e in Hs by (unfold t; lia).
    assert (HT : (0 < inject_Z (2 ^ t))%Q).
    { change 0%Q with (inject_Z 0). rewrite <- Zlt_Qlt. apply Z.pow_pos_nonneg; lia. }
    assert (HUT : (2 ^ e * inject_Z (2 ^ t) == 1)%Q).
    { rewrite <- (pow2_Z t) by exact Ht. rewrite <- pow2_add.
      replace (e + t) with 0 by (unfold t; lia). reflexivity. }
    assert (Hz : K * 2 ^ t + 1 <= Z.pos m).
    { assert (Hq : (inject_Z (K * 2 ^ t) < inject_Z (Z.pos m))%Q).
      { rewrite inject_Z_mult, <- Hs. apply Qmult_lt_compat_r; assumption. }
      rewrite <- Zlt_Qlt in Hq. lia. }
    rewrite Zle_Qle, inject_Z_plus, inject_Z_mult in Hz.
    assert (Hz' : ((inject_Z K * inject_Z (2 ^ t) + inject_Z 1) * 2 ^ e
                   <= inject_Z (Z.pos m) * 2 ^ e)%Q)
      by (apply Qmult_le_compat_r; [exact Hz | apply Qlt_le_weak, HU]).
    fold (val m e) in Hz'.
    assert (Hz'' : ((inject_Z K * inject_Z (2 ^ t) + inject_Z 1) * 2 ^ e
                    == inject_Z K + 2 ^ e)%Q).
    { transitivity (inject_Z K * (2 ^ e * inject_Z (2 ^ t)) + 2 ^ e)%Q.
      - change (inject_Z 1) with 1%Q. ring.
      - rewrite HUT. ring. }
    rewrite Hz'' in Hz'. lra.
Qed.

(** The exact value is at most the rounded one enlarged by [2^-53]. *)
Lemma round_above (m : positive) (e : Z) (x y : Q) :
  2 ^ 52 <= Z.pos m < 2 ^ 53 -> (0 < y)%Q ->
  (x - 2 ^ e * (1 # 2) * y <= val m e * y)%Q ->
  (x <= val m e * y * (1 + (1 # 9007199254740992)))%Q.
Proof.
  intros Hm Hy Herr.
  pose proof (val_lower m e ltac:(lia)) as Hl.
  change (inject_Z (2 ^ 52)) with (4503599627370496%Q) in Hl.
  assert (H : (2 ^ e * (1 # 2) <= val m e * (1 # 9007199254740992))%Q) by lra.
  assert (H' : (2 ^ e * (1 # 2) * y <= val m e * (1 # 9007199254740992) * y)%Q)
    by (apply Qmult_le_compat_r; [exact H | apply Qlt_le_weak, Hy]).
  lra.
Qed.

(** A normal float in [(k - 1, k]] for an integer [k] below [2^52] has a
    negative exponent, and the ceiling [math.Ceil] computes for it is [k]. *)
Lemma val_bracket_ceil (m : positive) (e k : Z) :
  2 ^ 52 <= Z.pos m < 2 ^ 53 -> 1 <= k < 2 ^ 52 ->
  (inject_Z (k - 1) < val m e)%Q -> (val m e <= inject_Z k)%Q ->
  e < 0 /\ - ((- Z.pos m) / 2 ^ (- e)) = k.
Proof.
  intros Hm Hk Hlo Hhi.
  assert (He : e < 0).
  { destruct (Z.lt_ge_cases e 0) as [|He]; [assumption|exfalso].
    pose proof (val_lower m e ltac:(lia)) as Hl. pose proof (pow2_ge_1 e He) as H1.
    assert (Hk' : (inject_Z k <= inject_Z (2 ^ 52 - 1))%Q) by (rewrite <- Zle_Qle; lia).
    change (inject_Z (2 ^ 52)) with (4503599627370496%Q) in Hl.
    change (inject_Z (2 ^ 52 - 1)) with (4503599627370495%Q) in Hk'.
    lra. }
  split; [exact He|].
  set (t := - e). assert (Ht : 0 <= t) by (unfold t; lia).
  pose proof (val_scaled m t Ht) as Hs. replace (- t) with e in Hs by (unfold t; lia).
  assert (HT : (0 < inject_Z (2 ^ t))%Q).
  { change 0%Q with (inject_Z 0). rewrite <- Zlt_Qlt. apply Z.pow_pos_nonneg; lia. }
  assert (HTz : 0 < 2 ^ t) by (apply Z.pow_pos_nonneg; lia).
  assert (H1 : (k - 1) * 2 ^ t < Z.pos m).
  { rewrite Zlt_Qlt, inject_Z_mult, <- Hs. apply Qmult_lt_compat_r; assumption. }
  assert (H2 : Z.pos m <= k * 2 ^ t).
  { rewrite Zle_Qle, inject_Z_mult, <- Hs. apply Qmult_le_compat_r; [assumption|apply Qlt_le_weak, HT]. }
  assert (E : (- Z.pos m) / 2 ^ t = - k).
  { symmetry. apply Z.div_unique with (r := k * 2 ^ t - Z.pos m); [left; lia | lia]. }
  rewrite E. lia.
Qed.

Lemma pos_iter_xO (p k : positive) : Z.pos (Pos.iter xO p k) = Z.pos p * 2 ^ Z.pos k.
Proof.
  induction k as [|k IH] using Pos.peano_ind.
  - cbn [Pos.iter]. lia.
  - rewrite Pos.iter_succ, Pos2Z.inj_xO, IH, Pos2Z.inj_succ, Z.pow_succ_r by lia. lia.
Qed.

(** [float64(z)] is exact for a positive [z] below [2^53]: a normal float
    whose mantissa is [z] shifted to 53 bits. *)
Lemma float64_of_int_exact (z : Z) :
  1 <= z < 2 ^ 53 ->
  exists (m : positive) (a : Z),
    float64_of_int z = S754_finite false m (- a)
    /\ 0 <= a <= 52
    /\ Z.pos m = z * 2 ^ a
    /\ 2 ^ 52 <= Z.pos m < 2 ^ 53.
Proof.
  intros Hz. destruct z as [|p|p]; try lia.
  pose proof (digits2_pos_bounds p) as [Hlo Hhi].
  set (d := Z.pos (digits2_pos p)) in *.
  assert (Hd : 1 <= d <= 53).
  { split; [unfold d; lia|].
    destruct (Z.le_gt_cases d 53) as [|Hc]; [assumption|exfalso].
    assert (2 ^ 53 <= 2 ^ (d - 1)) by (apply Z.pow_le_mono_r; lia). lia. }
  assert (Hf : fexp prec emax (d + 0) = d - 53) by (unfold fexp, emin, prec, emax; lia).
  unfold float64_of_int, binary_normalize, binary_round, shl_align.
  fold d. rewrite Hf. rewrite Z.sub_0_r.
  destruct (d - 53) as [|k|k] eqn:Ek; try lia.
  - assert (d = 53) by lia.
    rewrite round_aux_53 by (rewrite ?H in *; lia).
    cbn [round_nearest_even]. cbv zeta.
    replace (Z.pos p <? 2 ^ 53) with true by (symmetry; apply Z.ltb_lt; lia).
    exists p, 0. rewrite H in Hlo. repeat split; try lia. 
  - assert (Hk : Z.pos k = 53 - d) by lia.
    assert (Hm : 2 ^ 52 <= Z.pos (Pos.iter xO p k) < 2 ^ 53).
    { rewrite pos_iter_xO, Hk.
      assert (E1 : 2 ^ 52 = 2 ^ (d - 1) * 2 ^ (53 - d))
        by (rewrite <- Z.pow_add_r by lia; f_equal; lia).
      assert (E2 : 2 ^ 53 = 2 ^ d * 2 ^ (53 - d))
        by (rewrite <- Z.pow_add_r by lia; f_equal; lia).
      assert (0 < 2 ^ (53 - d)) by (apply Z.pow_pos_nonneg; lia).
      rewrite E1, E2. split; [apply Z.mul_le_mono_nonneg_r | apply Z.mul_lt_mono_pos_r]; lia. }
    rewrite round_aux_53 by lia.
    cbn [round_nearest_even]. cbv zeta.
    replace (Z.pos (Pos.iter xO p k) <? 2 ^ 53) with true by (symmetry; apply Z.ltb_lt; lia).
    exists (Pos.iter xO p k), (Z.pos k). cbn [Z.to_pos].
    repeat split; try lia. apply pos_iter_xO.
Qed.

Lemma val_of_int (m : positive) (a z : Z) :
  0 <= a -> Z.pos m = z * 2 ^ a -> (val m (- a) == inject_Z z)%Q.
Proof.
  intros Ha Hm. pose proof (val_scaled m a Ha) as H.
  rewrite Hm, inject_Z_mult in H.
  assert (HT : (0 < inject_Z (2 ^ a))%Q).
  { change 0%Q with (inject_Z 0). rewrite <- Zlt_Qlt. apply Z.pow_pos_nonneg; lia. }
  apply (Qmult_inj_r _ _ (inject_Z (2 ^ a))); [lra | exact H].
Qed.

(** ** The window *)

Section Window.

Variable int_indefinite : float64 -> Z.

Local Abbreviation calc := (calculateDesiredInstances_with int_indefinite).
Local Abbreviation turn := (calculateInstancesLoop_body_with int_indefinite).
Local Abbreviation run := (calculateInstancesLoop_with int_indefinite).
Local Abbreviation window := (window_after int_indefinite).

Lemma calc_config jobs now a : config (snd (calc jobs now a)) = config a.
Proof.
  unfold calculateDesiredInstances_with.
  destruct (notEnoughSamples _); [reflexivity|].
  destruct (_ >? _); reflexivity.
Qed.

Lemma calc_instances jobs now a : instances (snd (calc jobs now a)) = instances a.
Proof.
  unfold calculateDesiredInstances_with.
  destruct (notEnoughSamples _); [reflexivity|].
  destruct (_ >? _); reflexivity.
Qed.

Lemma calc_lastScaleTime jobs now a :
  lastScaleTime (snd (calc jobs now a)) = lastScaleTime a.
Proof.
  unfold calculateDesiredInstances_with.
  destruct (notEnoughSamples _); [reflexivity|].
  destruct (_ >? _); reflexivity.
Qed.

(** The samples kept after a call: the new one is appended, and the oldest is
    dropped when that makes more than [NumSamples]. *)
Lemma calc_samples jobs now a :
  samples (snd (calc jobs now a)) =
  if NumSamples (config a) <? Z.of_nat (List.length (samples a)) + 1
  then tl (samples a ++ [jobs]) else samples a ++ [jobs].
Proof.
  unfold calculateDesiredInstances_with, notEnoughSamples. cbn [set_samples samples config].
  rewrite length_app. cbn [List.length].
  replace (Z.of_nat (List.length (samples a) + 1)) with (Z.of_nat (List.length (samples a)) + 1) by lia.
  destruct (Z.ltb_spec (Z.of_nat (List.length (samples a)) + 1) (NumSamples (config a))).
  - cbn [snd samples]. destruct (Z.ltb_spec (NumSamples (config a)) (Z.of_nat (List.length (samples a)) + 1)); [lia|reflexivity].
  - cbn [snd]. rewrite Z.gtb_ltb.
    destruct (Z.ltb_spec (NumSamples (config a)) (Z.of_nat (List.length (samples a)) + 1)); reflexivity.
Qed.

Lemma turn_samples jobs now sent a :
  samples (fst (turn jobs now sent a)) = samples (snd (calc jobs now a)).
Proof.
  unfold calculateInstancesLoop_body_with. destruct (calc jobs now a) as [n a1].
  destruct (negb _); reflexivity.
Qed.

Lemma turn_config jobs now sent a : config (fst (turn jobs now sent a)) = config a.
Proof.
  unfold calculateInstancesLoop_body_with. pose proof (calc_config jobs now a) as H.
  destruct (calc jobs now a) as [n a1]. destruct (negb _); exact H.
Qed.

Lemma last_n_length {A : Type} (n : Z) (xs : list A) :
  0 <= n -> Z.of_nat (List.length (last_n n xs)) = Z.min n (Z.of_nat (List.length xs)).
Proof. intros Hn. unfold last_n. rewrite length_skipn. lia. Qed.

Lemma last_n_all {A : Type} (n : Z) (xs : list A) :
  Z.of_nat (List.length xs) <= n -> last_n n xs = xs.
Proof.
  intros H. unfold last_n.
  replace (List.length xs - Z.to_nat n)%nat with 0%nat by lia. reflexivity.
Qed.

(** Dropping the head of a prefix longer than [n] does not change the last
    [n] elements. *)
Lemma last_n_tl {A : Type} (n : Z) (xs rest : list A) :
  0 <= n < Z.of_nat (List.length xs) ->
  last_n n (tl xs ++ rest) = last_n n (xs ++ rest).
Proof.
  destruct xs as [|x xs]; cbn [List.length tl]; intros H; [lia|].
  unfold last_n. cbn [app List.length].
  replace (S (List.length (xs ++ rest)) - Z.to_nat n)%nat
    with (S (List.length (xs ++ rest) - Z.to_nat n)) by (rewrite length_app; lia).
  reflexivity.
Qed.

(** The window after any run of ticks is the last [NumSamples] samples pushed
    (on top of those already there). *)
Lemma run_samples ticks : forall a,
  1 <= NumSamples (config a) ->
  Z.of_nat (List.length (samples a)) <= NumSamples (config a) ->
  samples (run ticks a) = last_n (NumSamples (config a)) (samples a ++ pushed ticks).
Proof.
  induction ticks as [|[[jobs now] sent] rest IH]; intros a HN Hlen.
  - cbn [calculateInstancesLoop_with pushed map]. rewrite app_nil_r, last_n_all; auto.
  - cbn [calculateInstancesLoop_with pushed map fst].
    assert (Hs := turn_samples jobs now sent a).
    assert (Hc := turn_config jobs now sent a).
    rewrite calc_samples in Hs.
    set (a' := fst (turn jobs now sent a)) in *.
    assert (Hlen' : Z.of_nat (List.length (samples a')) <= NumSamples (config a')).
    { rewrite Hs, Hc.
      destruct (Z.ltb_spec (NumSamples (config a)) (Z.of_nat (List.length (samples a)) + 1)).
      - destruct (samples a) as [|x xs]; cbn [app tl List.length] in *; [lia|].
        rewrite length_app. cbn [List.length]. lia.
      - rewrite length_app. cbn [List.length]. lia. }
    rewrite IH; [| rewrite Hc; exact HN | exact Hlen']. rewrite Hc, Hs.
    fold (pushed rest).
    replace (samples a ++ jobs :: pushed rest) with ((samples a ++ [jobs]) ++ pushed rest)
      by (rewrite <- app_assoc; reflexivity).
    destruct (Z.ltb_spec (NumSamples (config a)) (Z.of_nat (List.length (samples a)) + 1)).
    + apply last_n_tl. rewrite length_app. cbn [List.length]. lia.
    + reflexivity.
Qed.

(** The state a run of the loop reaches depends on redis through the samples
    only. *)
Lemma loop_state_sampled ticks : forall a,
  fst (fst (calculateInstancesLoop int_indefinite ticks a)) = run (sampled ticks) a.
Proof.
  induction ticks as [|[[r now] sent] rest IH]; intros a; [reflexivity|].
  cbn [calculateInstancesLoop sampled map calculateInstancesLoop_with fst snd].
  unfold calculateInstancesLoop_body, calculateInstancesLoop_body_with, calculateDesiredInstances.
  destruct (sampleJobs r) as [jobs lg]. cbn [fst].
  destruct (calc jobs now a) as [n a1].
  destruct (negb (n =? instances a1)); cbn [fst]; fold (sampled rest);
    match goal with
    | |- context [calculateInstancesLoop int_indefinite rest ?b] =>
        rewrite <- (IH b);
        destruct (calculateInstancesLoop int_indefinite rest b) as [[a2 outs] lgs]
    end; reflexivity.
Qed.

Lemma run_config ticks : forall a, config (run ticks a) = config a.
Proof.
  induction ticks as [|[[jobs now] sent] rest IH]; intros a; cbn [calculateInstancesLoop_with]; [reflexivity|].
  rewrite IH. apply turn_config.
Qed.

Lemma pushed_length ticks : List.length (pushed ticks) = List.length ticks.
Proof. apply length_map. Qed.

(** C4. With [NumSamples >= 1] and the empty window [init] leaves, after any
    sequence of ticks the window is the last [NumSamples] samples pushed, in
    the order pushed (the oldest was dropped first), so it never holds more
    than [NumSamples] of them; and the next push fails the test "enough
    samples" exactly when it is one of the first [NumSamples - 1] pushes. *)
Theorem smoother_ready_and_bounded (cfg : AutoscalerConfig) (count : Z)
    (ticks : list (Z * Z * Z)) (jobs : Z) :
  1 <= NumSamples cfg ->
  let a := run ticks (init_autoscaler cfg count) in
  samples a = last_n (NumSamples cfg) (pushed ticks)
  /\ Z.of_nat (List.length (samples a)) <= NumSamples cfg
  /\ (notEnoughSamples (set_samples a (samples a ++ [jobs])) = true
      <-> Z.of_nat (List.length ticks) + 1 < NumSamples cfg)
  /\ Z.of_nat (List.length (window a jobs)) <= NumSamples cfg.
Proof.
  intros HN a.
  assert (Hs : samples a = last_n (NumSamples cfg) (pushed ticks)).
  { unfold a. rewrite run_samples; cbn [init_autoscaler config samples app List.length]; auto; lia. }
  assert (Hc : config a = cfg).
  { unfold a. rewrite run_config. reflexivity. }
  assert (Hl : Z.of_nat (List.length (samples a))
               = Z.min (NumSamples cfg) (Z.of_nat (List.length ticks))).
  { rewrite Hs, last_n_length, pushed_length; lia. }
  repeat split.
  - exact Hs.
  - lia.
  - unfold notEnoughSamples. cbn [set_samples samples config]. rewrite Hc.
    rewrite length_app. cbn [List.length]. intros H. apply Z.ltb_lt in H. lia.
  - unfold notEnoughSamples. cbn [set_samples samples config]. rewrite Hc.
    rewrite length_app. cbn [List.length]. intros H. apply Z.ltb_lt. lia.
  - unfold window_after. rewrite calc_samples, Hc.
    destruct (Z.ltb_spec (NumSamples cfg) (Z.of_nat (List.length (samples a)) + 1)).
    + destruct (samples a) as [|x xs]; cbn [app tl List.length] in *; [lia|].
      rewrite length_app. cbn [List.length]. lia.
    + rewrite length_app. cbn [List.length]. lia.
Qed.

(** C10. Every call appends the new sample to the window before anything
    else: whatever the clock, the instance count and the time of the last
    scaling event, the window after the call is the old one with the sample at
    its end, less its oldest sample when that makes more than [NumSamples];
    and a turn of the loop leaves the window the call left. *)
Theorem sample_appended_every_tick (jobs now sent : Z) (a : Autoscaler) :
  samples (snd (calc jobs now a)) =
    (if NumSamples (config a) <? Z.of_nat (List.length (samples a)) + 1
     then tl (samples a ++ [jobs]) else samples a ++ [jobs])
  /\ samples (fst (turn jobs now sent a)) = samples (snd (calc jobs now a))
  /\ Z.of_nat (List.length (samples a ++ [jobs])) = Z.of_nat (List.length (samples a)) + 1
  /\ last (samples a ++ [jobs]) 0 = jobs.
Proof.
  split; [apply calc_samples|]. split; [apply turn_samples|].
  split; [rewrite length_app; cbn [List.length]; lia | apply last_last].
Qed.

End Window.

(** ** The decision *)

Section Decision.

Variable int_indefinite : float64 -> Z.

Local Abbreviation calc := (calculateDesiredInstances_with int_indefinite).
Local Abbreviation turn := (calculateInstancesLoop_body_with int_indefinite).
Local Abbreviation desired := (desired_at int_indefinite).

Lemma clampInstances_bounds (cfg : AutoscalerConfig) (n : Z) :
  MinInstances cfg <= MaxInstances cfg ->
  MinInstances cfg <= clampInstances cfg n <= MaxInstances cfg.
Proof.
  intros H. unfold clampInstances. rewrite Z.gtb_ltb.
  destruct (Z.ltb_spec (MaxInstances cfg) n);
    match goal with |- context [?x <? ?y] => destruct (Z.ltb_spec x y) end; lia.
Qed.

(** A count already within the bounds is left as it is. *)
Lemma clampInstances_id (cfg : AutoscalerConfig) (n : Z) :
  MinInstances cfg <= n <= MaxInstances cfg -> clampInstances cfg n = n.
Proof.
  intros H. unfold clampInstances. rewrite Z.gtb_ltb.
  destruct (Z.ltb_spec (MaxInstances cfg) n); [lia|].
  destruct (Z.ltb_spec n (MinInstances cfg)); [lia|reflexivity].
Qed.

(** [decide] returns the current count or the desired one. *)
Lemma decide_cases (a : Autoscaler) (d now : Z) :
  decide a d now = instances a \/ decide a d now = d.
Proof.
  unfold decide. destruct (_ && _); [now right|]. destruct (_ && _); [now right | now left].
Qed.

(** [decide] reads the instance count, the time of the last scaling event
    and the options only. *)
Lemma decide_ext (a b : Autoscaler) (d now : Z) :
  config a = config b -> instances a = instances b ->
  lastScaleTime a = lastScaleTime b -> decide a d now = decide b d now.
Proof. intros Hc Hi Ht. unfold decide. rewrite Hc, Hi, Ht. reflexivity. Qed.

(** What [decide] returns when the desired count differs from the current
    one: the desired count strictly after the delay, the current one until
    then. *)
Lemma decide_differs (a : Autoscaler) (d now : Z) :
  d <> instances a ->
  decide a d now =
    if lastScaleTime a + delay_for a d <? now then d else instances a.
Proof.
  intros Hd. unfold decide, delay_for, after_delay. rewrite Z.gtb_ltb.
  destruct (Z.ltb_spec (instances a) d) as [Hup|Hup]; cbn [andb].
  - destruct (_ <? now); [reflexivity|].
    destruct (Z.ltb_spec d (instances a)); [lia|reflexivity].
  - destruct (Z.ltb_spec d (instances a)); [|lia]. cbn [andb].
    destruct (_ <? now); reflexivity.
Qed.

(** A call that finds enough samples returns what [decide] returns for the
    clamped count of its window. *)
Lemma calc_ready (jobs now : Z) (a : Autoscaler) :
  notEnoughSamples (set_samples a (samples a ++ [jobs])) = false ->
  fst (calc jobs now a) = decide a (desired a jobs) now.
Proof.
  intros Hr. unfold desired_at, window_after, calculateDesiredInstances_with.
  rewrite Hr. cbn [config set_samples samples fst snd].
  destruct (_ >? _); cbn [config samples set_samples]; apply decide_ext; reflexivity.
Qed.

Lemma calc_not_ready (jobs now : Z) (a : Autoscaler) :
  notEnoughSamples (set_samples a (samples a ++ [jobs])) = true ->
  calc jobs now a = (instances a, set_samples a (samples a ++ [jobs])).
Proof.
  intros Hr. unfold calculateDesiredInstances_with. rewrite Hr. reflexivity.
Qed.

(** What a turn of the loop sends, from what the call returned. *)
Lemma turn_sent (jobs now sent : Z) (a : Autoscaler) :
  snd (turn jobs now sent a) =
    if fst (calc jobs now a) =? instances a then None else Some (fst (calc jobs now a)).
Proof.
  unfold calculateInstancesLoop_body_with. pose proof (calc_instances int_indefinite jobs now a) as Hi.
  destruct (calc jobs now a) as [n a1]. cbn [fst snd] in *. rewrite Hi.
  destruct (n =? instances a); reflexivity.
Qed.

(** C1, as the code has it.  When the window is full and the clamped count
    differs from the current one, the turn sends the clamped count if and
    only if the clock is strictly after the last scaling event plus the delay
    of the direction (scale-up delay to grow, scale-down delay to shrink), and
    sends nothing otherwise: at the very instant the delay ends nothing is
    sent yet. *)
Theorem hysteresis_strictly_after (jobs now sent : Z) (a : Autoscaler) :
  notEnoughSamples (set_samples a (samples a ++ [jobs])) = false ->
  desired a jobs <> instances a ->
  (snd (turn jobs now sent a) = Some (desired a jobs)
     <-> lastScaleTime a + delay_for a (desired a jobs) < now)
  /\ (snd (turn jobs now sent a) = None
     <-> now <= lastScaleTime a + delay_for a (desired a jobs)).
Proof.
  intros Hr Hd. rewrite turn_sent, (calc_ready _ _ _ Hr), (decide_differs _ _ _ Hd).
  destruct (Z.ltb_spec (lastScaleTime a + delay_for a (desired a jobs)) now) as [H|H].
  - destruct (Z.eqb_spec (desired a jobs) (instances a)); [contradiction|].
    split; split; intros; try reflexivity; try lia; discriminate.
  - rewrite Z.eqb_refl. split; split; intros; try reflexivity; try lia; discriminate.
Qed.

(** C2. With [0 < MinInstances <= MaxInstances] the clamped count lies
    between the two bounds whatever the count before clamping is, so it does
    for every window; and what a call returns is the current count or a count
    between the bounds. *)
Theorem desired_within_bounds (cfg : AutoscalerConfig) :
  0 < MinInstances cfg <= MaxInstances cfg ->
  (forall raw : Z, MinInstances cfg <= clampInstances cfg raw <= MaxInstances cfg)
  /\ (forall window : list Z,
        MinInstances cfg
        <= clampInstances cfg (rawDesiredInstances int_indefinite cfg window)
        <= MaxInstances cfg)
  /\ (forall (a : Autoscaler) (jobs now : Z), config a = cfg ->
        MinInstances cfg <= desired a jobs <= MaxInstances cfg
        /\ (fst (calc jobs now a) = instances a
            \/ MinInstances cfg <= fst (calc jobs now a) <= MaxInstances cfg)).
Proof.
  intros H.
  assert (Hb : forall raw, MinInstances cfg <= clampInstances cfg raw <= MaxInstances cfg)
    by (intros; apply clampInstances_bounds; lia).
  split; [exact Hb|]. split; [intros; apply Hb|].
  intros a jobs now Hc. subst cfg. split; [apply Hb|].
  destruct (notEnoughSamples (set_samples a (samples a ++ [jobs]))) eqn:Hr.
  - left. rewrite (calc_not_ready _ _ _ Hr). reflexivity.
  - rewrite (calc_ready _ _ _ Hr).
    destruct (decide_cases a (desired a jobs) now) as [->| ->]; [now left|right; apply Hb].
Qed.

(** C5. When the window with the new sample is still shorter than
    [NumSamples], the call returns the current instance count and changes the
    window only, and the turn of the loop sends nothing. *)
Theorem not_ready_returns_current (jobs now sent : Z) (a : Autoscaler) :
  Z.of_nat (List.length (samples a ++ [jobs])) < NumSamples (config a) ->
  calc jobs now a = (instances a, set_samples a (samples a ++ [jobs]))
  /\ turn jobs now sent a = (set_samples a (samples a ++ [jobs]), None).
Proof.
  intros H.
  assert (Hr : notEnoughSamples (set_samples a (samples a ++ [jobs])) = true)
    by (apply Z.ltb_lt; exact H).
  split; [apply calc_not_ready; exact Hr|].
  unfold calculateInstancesLoop_body_with. rewrite (calc_not_ready _ _ _ Hr).
  cbn [instances set_samples]. rewrite Z.eqb_refl. reflexivity.
Qed.

(** C3. A turn of the loop either sends nothing, and then leaves the
    instance count and the time of the last scaling event as they were, or
    sends a count different from the current one, and then records that count
    and the clock read after the send.  It sends nothing exactly when the
    call returned the current count. *)
Theorem no_change_leaves_state (r : Redis) (now sent : Z) (a : Autoscaler) :
  let res := calculateInstancesLoop_body int_indefinite r now sent a in
  let a' := fst (fst res) in
  config a' = config a
  /\ match snd (fst res) with
     | None => instances a' = instances a /\ lastScaleTime a' = lastScaleTime a
     | Some n => n <> instances a /\ instances a' = n /\ lastScaleTime a' = sent
     end
  /\ (match snd (fst res) with Some _ => false | None => true end)
     = (fst (calc (fst (sampleJobs r)) now a) =? instances a).
Proof.
  unfold calculateInstancesLoop_body, calculateDesiredInstances.
  destruct (sampleJobs r) as [jobs lg]. cbn [fst].
  pose proof (calc_instances int_indefinite jobs now a) as Hi.
  pose proof (calc_lastScaleTime int_indefinite jobs now a) as Ht.
  pose proof (calc_config int_indefinite jobs now a) as Hc.
  destruct (calc jobs now a) as [n a1]. cbn [fst snd] in *. rewrite Hi.
  destruct (Z.eqb_spec n (instances a)) as [He|He]; cbn [negb fst snd set_scaled config instances lastScaleTime];
    repeat split; auto.
Qed.

End Decision.

(** ** The instance count at startup *)

Section Startup.

Variable int_indefinite : float64 -> Z.

Local Abbreviation count_of := (getInstanceCount int_indefinite).

Lemma float64_gt_zero (x : float64) :
  float64_gt x (S754_zero false) = negb (float64_not_positive x).
Proof. destruct x as [s|s| |s m e]; try destruct s; reflexivity. Qed.

(** A float whose integer part is at least 1 is above zero. *)
Lemma float64_trunc_positive (x : float64) (z : Z) :
  float64_trunc x = Some z -> 1 <= z -> float64_not_positive x = false.
Proof.
  destruct x as [s|s| |s m e]; unfold float64_trunc; intros Ht Hz; try discriminate.
  - assert (z = 0) by congruence. lia.
  - destruct s; [exfalso|reflexivity].
    assert (E : z = - (if 0 <=? e then Z.pos m * 2 ^ e else Z.pos m / 2 ^ (- e)))
      by (unfold cond_Zopp in Ht; congruence).
    destruct (0 <=? e).
    + pose proof (Z.pow_nonneg 2 e ltac:(lia)). nia.
    + pose proof (Z.div_pos (Z.pos m) (2 ^ (- e))).
      pose proof (Z.pow_nonneg 2 (- e) ltac:(lia)).
      destruct (Z.eq_dec (2 ^ (- e)) 0) as [E0|E0]; [rewrite E0, Z.div_0_r in E; lia | lia].
Qed.

(** C8. When the read of the current instance count fails, by an error of
    the call or by a status other than 200, [getInstanceCount] returns
    [MinInstances], which is the count the state starts with. *)
Theorem getInstanceCount_read_failure (cfg : AutoscalerConfig)
    (renderAPICall : string -> string -> string -> APIResult)
    (gjsonNum : string -> string -> float64) :
  let r := renderAPICall "GET" (String.append "/services/" (WorkerServiceId cfg)) "" in
  api_err r <> None \/ api_status r <> StatusOK ->
  fst (count_of cfg renderAPICall gjsonNum) = MinInstances cfg
  /\ instances (init_autoscaler cfg (fst (count_of cfg renderAPICall gjsonNum)))
     = MinInstances cfg.
Proof.
  intros r H.
  assert (E : fst (count_of cfg renderAPICall gjsonNum) = MinInstances cfg).
  { unfold getInstanceCount. fold r. destruct (api_err r) as [e|]; [reflexivity|].
    destruct H as [H|H]; [congruence|].
    destruct (Z.eqb_spec (api_status r) StatusOK); [contradiction|reflexivity]. }
  split; [exact E|]. cbn [init_autoscaler instances]. exact E.
Qed.

(** C9, as the code has it.  When the read succeeds with status 200: if the
    number read is a zero (also the zero of a missing field), negative or a
    NaN, [getInstanceCount] returns [MinInstances]; if its integer part is at
    least 1 and fits an [int], it returns that integer part; nothing is logged
    in either case.  With [0 < MinInstances] the count returned is positive in
    both cases. *)
Theorem getInstanceCount_read_success (cfg : AutoscalerConfig)
    (renderAPICall : string -> string -> string -> APIResult)
    (gjsonNum : string -> string -> float64) :
  let r := renderAPICall "GET" (String.append "/services/" (WorkerServiceId cfg)) "" in
  let count := gjsonNum (api_body r) "serviceDetails.numInstances" in
  api_err r = None -> api_status r = StatusOK ->
  (float64_not_positive count = true ->
     count_of cfg renderAPICall gjsonNum = (MinInstances cfg, []))
  /\ (forall z : Z, float64_trunc count = Some z -> 1 <= z <= max_int ->
        count_of cfg renderAPICall gjsonNum = (z, []))
  /\ (0 < MinInstances cfg ->
      float64_not_positive count = true
      \/ (exists z : Z, float64_trunc count = Some z /\ 1 <= z <= max_int) ->
      0 < fst (count_of cfg renderAPICall gjsonNum)).
Proof.
  intros r count He Hs.
  assert (Hfall : float64_not_positive count = true ->
                  count_of cfg renderAPICall gjsonNum = (MinInstances cfg, [])).
  { intros Hn. unfold getInstanceCount. fold r. rewrite He, Hs.
    cbn [negb Z.eqb StatusOK Pos.eqb]. fold count. rewrite float64_gt_zero, Hn.
    reflexivity. }
  assert (Hint : forall z : Z, float64_trunc count = Some z -> 1 <= z <= max_int ->
                 count_of cfg renderAPICall gjsonNum = (z, [])).
  { intros z Ht Hz. unfold getInstanceCount. fold r. rewrite He, Hs.
    cbn [negb Z.eqb StatusOK Pos.eqb]. fold count. rewrite float64_gt_zero.
    assert (Hp : float64_not_positive count = false)
      by (apply (float64_trunc_positive _ z); [exact Ht | lia]).
    rewrite Hp. cbn [negb]. unfold int_of_float64. rewrite Ht.
    replace (min_int <=? z) with true by (symmetry; apply Z.leb_le; unfold min_int; lia).
    replace (z <=? max_int) with true by (symmetry; apply Z.leb_le; lia).
    reflexivity. }
  split; [exact Hfall|]. split; [exact Hint|].
  intros Hmin [Hn|(z & Ht & Hz)].
  - rewrite (Hfall Hn). exact Hmin.
  - rewrite (Hint z Ht Hz). cbn [fst]. lia.
Qed.

End Startup.

(** ** The sample *)

Section Sample.

Variable r : Redis.

Lemma countActiveJobs_loop_spec (workers : list string) : forall jobs : Z,
  0 <= jobs ->
  jobs + Z.of_nat (List.length (filter (lease_present r) workers)) <= max_int ->
  fst (countActiveJobs_loop r workers jobs)
    = jobs + Z.of_nat (List.length (filter (lease_present r) workers))
  /\ List.length (snd (countActiveJobs_loop r workers jobs))
    = List.length (filter (get_failed r) workers).
Proof.
  induction workers as [|w ws IH]; intros jobs H0 Hmax.
  - cbn. split; [lia|reflexivity].
  - cbn [countActiveJobs_loop filter] in *.
    destruct (snd (Get r (String.append "resque:worker:" w))) as [e|] eqn:E.
    + assert (Hl : lease_present r w = false) by (unfold lease_present; rewrite E; reflexivity).
      assert (Hg : get_failed r w = negb (is_nil e)) by (unfold get_failed; rewrite E; reflexivity).
      rewrite Hl in *. rewrite Hg. specialize (IH jobs H0 Hmax).
      destruct (countActiveJobs_loop r ws jobs) as [n lg]. cbn [fst snd] in *.
      destruct IH as [-> IH].
      destruct (is_nil e); cbn [negb fst snd List.length]; rewrite IH; split; reflexivity.
    + assert (Hl : lease_present r w = true) by (unfold lease_present; rewrite E; reflexivity).
      assert (Hg : get_failed r w = false) by (unfold get_failed; rewrite E; reflexivity).
      rewrite Hl in *. rewrite Hg. cbn [List.length] in *.
      assert (Ha : add64 jobs 1 = jobs + 1)
        by (apply add64_small; unfold in_int, min_int; lia).
      rewrite Ha. destruct (IH (jobs + 1)) as [E1 E2]; [lia|lia|].
      rewrite E1, E2. split; [lia|reflexivity].
Qed.

Lemma retrievable_length_raw (queue : string) :
  zero_on_error r ->
  fst (LLen r (String.append "resque:queue:" queue)) = retrievable_length r queue.
Proof.
  intros Hz. unfold retrievable_length.
  destruct (LLen r (String.append "resque:queue:" queue)) as [len [e|]] eqn:E; [|reflexivity].
  exact (Hz _ _ _ E).
Qed.

Lemma sum_nonneg (xs : list Z) :
  Forall (fun x => 0 <= x) xs -> 0 <= fold_right Z.add 0 xs.
Proof. induction 1; cbn [fold_right]; lia. Qed.

Lemma countPendingJobs_loop_spec (queues : list string) : forall jobs : Z,
  zero_on_error r ->
  Forall (fun q => 0 <= retrievable_length r q) queues ->
  0 <= jobs ->
  jobs + fold_right Z.add 0 (map (retrievable_length r) queues) <= max_int ->
  fst (countPendingJobs_loop r queues jobs)
    = jobs + fold_right Z.add 0 (map (retrievable_length r) queues)
  /\ List.length (snd (countPendingJobs_loop r queues jobs))
    = List.length (filter (llen_failed r) queues).
Proof.
  induction queues as [|q qs IH]; intros jobs Hz Hpos H0 Hmax.
  - cbn. split; [lia|reflexivity].
  - cbn [countPendingJobs_loop filter map fold_right] in *.
    inversion Hpos as [|? ? Hq Hqs]; subst.
    pose proof (sum_nonneg (map (retrievable_length r) qs)) as Hsum.
    rewrite Forall_map in Hsum. specialize (Hsum Hqs).
    pose proof (retrievable_length_raw q Hz) as Hraw.
    unfold llen_failed.
    destruct (LLen r (String.append "resque:queue:" q)) as [len err]. cbn [fst snd] in *.
    subst len.
    assert (Ha : add64 jobs (retrievable_length r q) = jobs + retrievable_length r q)
      by (apply add64_small; unfold in_int, min_int; lia).
    rewrite Ha. destruct (IH (jobs + retrievable_length r q)) as [E1 E2]; auto; try lia.
    destruct (countPendingJobs_loop r qs (jobs + retrievable_length r q)) as [n lg].
    cbn [fst snd] in *. subst n.
    destruct err; cbn [fst snd List.length]; split; try lia; rewrite E2; reflexivity.
Qed.

(** For a redis whose failed reads come with the zero value, whose queue
    lengths are not negative and whose total fits an [int], the sample is the
    number of active jobs plus the number of pending jobs, and it is not
    negative. *)
Lemma sample_with_zero_on_error :
  zero_on_error r ->
  Forall (fun q => 0 <= retrievable_length r q) (registered_queues r) ->
  active_jobs r + pending_jobs r <= max_int ->
  fst (countActiveJobs r) = active_jobs r
  /\ fst (countPendingJobs r) = pending_jobs r
  /\ fst (sampleJobs r) = active_jobs r + pending_jobs r
  /\ 0 <= fst (sampleJobs r)
  /\ List.length (snd (sampleJobs r)) = failed_reads r.
Proof.
  intros Hz Hpos Hmax.
  pose proof (sum_nonneg (map (retrievable_length r) (registered_queues r))) as Hsum.
  rewrite Forall_map in Hsum. specialize (Hsum Hpos). fold (pending_jobs r) in Hsum.
  assert (Hact : 0 <= active_jobs r) by (unfold active_jobs; lia).
  destruct (countActiveJobs_loop_spec (registered_workers r) 0) as [A1 A2];
    [lia | fold (active_jobs r); lia |].
  destruct (countPendingJobs_loop_spec (registered_queues r) 0) as [P1 P2];
    [exact Hz | exact Hpos | lia | fold (pending_jobs r); lia |].
  fold (active_jobs r) in A1. fold (pending_jobs r) in P1.
  unfold sampleJobs, countActiveJobs, countPendingJobs, failed_reads, set_failed.
  unfold registered_workers, registered_queues in *.
  destruct (SMembers r "resque:workers") as [workers errw].
  destruct (SMembers r "resque:queues") as [queues errq].
  cbn [fst snd] in *.
  destruct (countActiveJobs_loop r workers 0) as [na lga].
  destruct (countPendingJobs_loop r queues 0) as [np lgp].
  cbn [fst snd] in *. subst na np.
  rewrite add64_small by (unfold in_int, min_int; lia).
  repeat split; try lia.
  rewrite !length_app, A2, P2. destruct errw, errq; cbn [List.length]; lia.
Qed.

End Sample.

(** ** The count before clamping *)

Section Average.

Variable int_indefinite : float64 -> Z.

Local Abbreviation to_int := (int_of_float64 int_indefinite).

(** Converting an integer below [2^53] to [float64] and back gives it
    again. *)
Lemma int_of_float64_of_int (z : Z) :
  0 <= z < 2 ^ 53 -> to_int (float64_of_int z) = z.
Proof.
  intros Hz. destruct (Z.eq_dec z 0) as [->|Hnz]; [reflexivity|].
  destruct (float64_of_int_exact z ltac:(lia)) as (m & a & -> & Ha & Hm & _).
  unfold int_of_float64, float64_trunc. cbn [cond_Zopp].
  assert (Hv : (if 0 <=? - a then Z.pos m * 2 ^ (- a) else Z.pos m / 2 ^ (- - a)) = z).
  { destruct (Z.leb_spec 0 (- a)).
    - assert (a = 0) by lia. subst a. cbn in *. lia.
    - rewrite Z.opp_involutive, Hm. apply Z.div_mul.
      pose proof (Z.pow_pos_nonneg 2 a). lia. }
  rewrite Hv.
  replace (min_int <=? z) with true by (symmetry; apply Z.leb_le; unfold min_int; lia).
  replace (z <=? max_int) with true by (symmetry; apply Z.leb_le; unfold max_int; lia).
  reflexivity.
Qed.

(** The sum [average] accumulates does not wrap around when the samples are
    not negative and their total fits an [int]. *)
Lemma fold_left_add64_exact (xs : list Z) : forall acc : Z,
  0 <= acc -> Forall (fun x => 0 <= x) xs -> acc + sum_list xs <= max_int ->
  fold_left add64 xs acc = acc + sum_list xs.
Proof.
  induction xs as [|x xs IH]; intros acc Hacc Hpos Hmax; cbn [fold_left sum_list fold_right] in *.
  - lia.
  - inversion Hpos as [|? ? Hx Hxs]; subst.
    pose proof (sum_nonneg xs Hxs) as Hs. fold (sum_list xs) in *.
    rewrite add64_small by (unfold in_int, min_int; lia).
    rewrite IH; auto; lia.
Qed.

(** Two roundings do not move the ceiling: for a total [s], a window length
    [n] and a number of workers [w] below [2^52], the ceiling of
    [(s / n) / w] computed in binary64 is the integer [k] with
    [(k - 1) * n * w < s <= k * n * w]. *)
Lemma ceil_of_rounded_quotients (s n w k : Z) :
  1 <= s < 2 ^ 52 -> 1 <= n < 2 ^ 52 -> 1 <= w < 2 ^ 52 ->
  (k - 1) * (n * w) < s <= k * (n * w) ->
  to_int (float64_ceil
            (float64_div (float64_div (float64_of_int s) (float64_of_int n))
               (float64_of_int w))) = k.
Proof.
  intros Hs Hn Hw [Hlo Hhi].
  assert (Hk : 1 <= k <= s) by nia.
  assert (Hkw : 0 <= k * w <= 2 ^ 53 - 2) by nia.
  destruct (float64_of_int_exact s ltac:(lia)) as (mx & ax & -> & Hax & Hmx & Hnx).
  destruct (float64_of_int_exact n ltac:(lia)) as (my & ay & -> & Hay & Hmy & Hny).
  destruct (float64_of_int_exact w ltac:(lia)) as (mw & aw & -> & Haw & Hmw & Hnw).
  pose proof (val_of_int mx ax s ltac:(lia) Hmx) as Vx.
  pose proof (val_of_int my ay n ltac:(lia) Hmy) as Vy.
  pose proof (val_of_int mw aw w ltac:(lia) Hmw) as Vw.
  unfold float64_div.
  destruct (SFdiv_normal_Q false false mx my (- ax) (- ay) Hnx Hny ltac:(lia))
    as (ma & ea & -> & Hea & Hna & Alo & Ahi).
  cbn [xorb].
  destruct (SFdiv_normal_Q false false ma mw ea (- aw) Hna Hnw ltac:(lia))
    as (mb & eb & -> & Heb & Hnb & Blo & Bhi).
  cbn [xorb].
  rewrite Vx, Vy in Alo, Ahi. rewrite Vw in Blo, Bhi.
  assert (Qn : (0 < inject_Z n)%Q) by (change 0%Q with (inject_Z 0); rewrite <- Zlt_Qlt; lia).
  assert (Qw : (0 < inject_Z w)%Q) by (change 0%Q with (inject_Z 0); rewrite <- Zlt_Qlt; lia).
  (* upper bounds *)
  assert (UA : (val ma ea <= inject_Z (k * w))%Q).
  { apply (round_below_int ma ea (k * w) (inject_Z s) (inject_Z n));
      [exact Hna | exact Qn | exact Ahi | | exact Hkw].
    rewrite <- inject_Z_mult, <- Zle_Qle. lia. }
  assert (UB : (val mb eb <= inject_Z k)%Q).
  { apply (round_below_int mb eb k (val ma ea) (inject_Z w));
      [exact Hnb | exact Qw | exact Bhi | | lia].
    rewrite <- inject_Z_mult. exact UA. }
  (* lower bound *)
  assert (LB : (inject_Z (k - 1) < val mb eb)%Q).
  { destruct (Qlt_le_dec (inject_Z (k - 1)) (val mb eb)) as [|Hc]; [assumption|exfalso].
    pose proof (round_above ma ea _ _ Hna Qn Alo) as RA.
    pose proof (round_above mb eb _ _ Hnb Qw Blo) as RB.
    set (u := (1 + (1 # 9007199254740992))%Q) in *.
    assert (Hu : (0 < u)%Q) by (unfold u; lra).
    assert (H1 : (val mb eb * inject_Z w <= inject_Z (k - 1) * inject_Z w)%Q)
      by (apply Qmult_le_compat_r; [exact Hc | lra]).
    assert (H2 : (val ma ea * inject_Z n <= inject_Z (k - 1) * inject_Z w * u * inject_Z n)%Q)
      by (apply Qmult_le_compat_r; [unfold u in *; lra | lra]).
    assert (H3 : (inject_Z (k - 1) * inject_Z w * inject_Z n <= inject_Z s - 1)%Q).
    { assert (Hz : (inject_Z ((k - 1) * w * n) <= inject_Z (s + - (1)))%Q)
        by (rewrite <- Zle_Qle; lia).
      rewrite !inject_Z_mult, inject_Z_plus, inject_Z_opp in Hz.
      change (inject_Z 1) with 1%Q in Hz. lra. }
    assert (H4 : (inject_Z s <= 4503599627370496)%Q).
    { change 4503599627370496%Q with (inject_Z (2 ^ 52)). rewrite <- Zle_Qle. lia. }
    assert (H5 : (inject_Z s <= inject_Z (k - 1) * inject_Z w * inject_Z n * (u * u))%Q).
    { apply Qle_trans with (1 := RA).
      apply Qle_trans with (inject_Z (k - 1) * inject_Z w * u * inject_Z n * u)%Q.
      - apply Qmult_le_compat_r; [exact H2 | lra].
      - apply Qle_lteq. right. ring. }
    assert (H6 : (inject_Z (k - 1) * inject_Z w * inject_Z n * (u * u)
                  <= (inject_Z s - 1) * (u * u))%Q).
    { apply Qmult_le_compat_r; [exact H3|]. unfold u. lra. }
    unfold u in *. lra. }
  destruct (val_bracket_ceil mb eb k Hnb ltac:(lia) LB UB) as [Heb0 Hceil].
  unfold float64_ceil.
  replace (0 <=? eb) with false by (symmetry; apply Z.leb_gt; exact Heb0).
  cbn [cond_Zopp]. rewrite Hceil.
  apply int_of_float64_of_int. lia.
Qed.

(** The ceiling of an exact quotient, by its defining inequalities. *)
Lemma exact_ceiling_bracket (s n w : Z) :
  1 <= n -> 1 <= w ->
  (Qceiling (inject_Z s / inject_Z n / inject_Z w) - 1) * (n * w) < s
  /\ s <= Qceiling (inject_Z s / inject_Z n / inject_Z w) * (n * w).
Proof.
  intros Hn Hw.
  set (x := (inject_Z s / inject_Z n / inject_Z w)%Q).
  assert (Qn : (0 < inject_Z n)%Q) by (change 0%Q with (inject_Z 0); rewrite <- Zlt_Qlt; lia).
  assert (Qw : (0 < inject_Z w)%Q) by (change 0%Q with (inject_Z 0); rewrite <- Zlt_Qlt; lia).
  assert (Hx : (x * (inject_Z n * inject_Z w) == inject_Z s)%Q).
  { unfold x. field. split; intros E; lra. }
  assert (Qnw : (0 < inject_Z n * inject_Z w)%Q) by (apply Qmult_lt_0_compat; assumption).
  pose proof (Qmult_lt_compat_r _ _ _ Qnw (Qceiling_lt x)) as Hlo.
  pose proof (Qmult_le_compat_r _ _ _ (Qle_ceiling x) (Qlt_le_weak _ _ Qnw)) as Hhi.
  rewrite Hx in Hlo, Hhi. rewrite <- !inject_Z_mult in Hlo, Hhi.
  rewrite <- Zlt_Qlt in Hlo. rewrite <- Zle_Qle in Hhi. split; assumption.
Qed.

(** C6, as the code has it.  For a window that is not empty, whose samples
    are not negative and whose total and length are below [2^52], and for a
    number of workers per instance from 1 to below [2^52], the count before
    clamping is the ceiling of the exact mean of the window divided by the
    number of workers per instance: neither the sum, nor the two binary64
    divisions, nor the conversion to [int] lose anything the ceiling could
    see. *)
Theorem raw_desired_is_exact_ceiling (cfg : AutoscalerConfig) (xs : list Z) :
  xs <> [] ->
  Forall (fun x => 0 <= x) xs ->
  sum_list xs < 2 ^ 52 ->
  Z.of_nat (List.length xs) < 2 ^ 52 ->
  1 <= WorkersPerInstance cfg < 2 ^ 52 ->
  rawDesiredInstances int_indefinite cfg xs = exact_raw_desired cfg xs.
Proof.
  intros Hne Hpos Hsum Hlen Hw.
  assert (Hn : 1 <= Z.of_nat (List.length xs)) by (destruct xs; [congruence | cbn [List.length]; lia]).
  pose proof (sum_nonneg xs Hpos) as Hs0. fold (sum_list xs) in Hs0.
  unfold rawDesiredInstances, exact_raw_desired, exact_mean, average.
  rewrite (fold_left_add64_exact xs 0) by (auto; unfold max_int; lia).
  rewrite Z.add_0_l.
  set (s := sum_list xs) in *. set (n := Z.of_nat (List.length xs)) in *.
  set (w := WorkersPerInstance cfg) in *.
  pose proof (exact_ceiling_bracket s n w Hn ltac:(lia)) as [Hlo Hhi].
  set (k := Qceiling (inject_Z s / inject_Z n / inject_Z w)) in *.
  destruct (Z.eq_dec s 0) as [Hz|Hz].
  - rewrite Hz in *. assert (k = 0) by nia.
    destruct (float64_of_int_exact n ltac:(lia)) as (my & ay & -> & _).
    destruct (float64_of_int_exact w ltac:(lia)) as (mw & aw & -> & _).
    symmetry. assumption.
  - apply ceil_of_rounded_quotients; try lia.
Qed.

End Average.

(** * Further properties *)

(** ** Emissions of one turn and of a run *)

Section Emissions.

Variable int_indefinite : float64 -> Z.

Local Abbreviation calc := (calculateDesiredInstances_with int_indefinite).
Local Abbreviation turn := (calculateInstancesLoop_body_with int_indefinite).
Local Abbreviation body := (calculateInstancesLoop_body int_indefinite).
Local Abbreviation loop := (calculateInstancesLoop int_indefinite).
Local Abbreviation run := (calculateInstancesLoop_with int_indefinite).
Local Abbreviation desired := (desired_at int_indefinite).
Local Abbreviation window := (window_after int_indefinite).

(** The clamp is the maximum of the lower bound and the minimum of the count
    and the upper bound, whatever the order of the bounds. *)
Lemma clampInstances_max_min (cfg : AutoscalerConfig) (n : Z) :
  clampInstances cfg n = Z.max (MinInstances cfg) (Z.min n (MaxInstances cfg)).
Proof.
  unfold clampInstances. rewrite Z.gtb_ltb.
  destruct (Z.ltb_spec (MaxInstances cfg) n);
    match goal with |- context [?x <? ?y] => destruct (Z.ltb_spec x y) end; lia.
Qed.

(** X1. With the bounds in the wrong order, [MaxInstances < MinInstances],
    the clamped count is [MinInstances] whatever the count before clamping:
    the lower bound is applied last and wins. *)
Theorem clampInstances_crossed_bounds (cfg : AutoscalerConfig) (n : Z) :
  MaxInstances cfg < MinInstances cfg ->
  clampInstances cfg n = MinInstances cfg.
Proof. intros H. rewrite clampInstances_max_min. lia. Qed.

(** A turn with redis is the turn on the sample counted, with the messages
    of the count. *)
Lemma body_with (r : Redis) (now sent : Z) (a : Autoscaler) :
  body r now sent a =
    (fst (turn (fst (sampleJobs r)) now sent a),
     snd (turn (fst (sampleJobs r)) now sent a),
     snd (sampleJobs r)).
Proof.
  unfold calculateInstancesLoop_body, calculateInstancesLoop_body_with,
    calculateDesiredInstances.
  destruct (sampleJobs r) as [jobs lg]. cbn [fst snd].
  destruct (calc jobs now a) as [n a1]. destruct (negb _); reflexivity.
Qed.

(** A call that returns another count than the current one found the window
    full, returns the clamped count of that window, and read a clock strictly
    after the last scaling event plus the delay of the direction. *)
Lemma calc_changes (jobs now : Z) (a : Autoscaler) :
  fst (calc jobs now a) <> instances a ->
  notEnoughSamples (set_samples a (samples a ++ [jobs])) = false
  /\ fst (calc jobs now a) = desired a jobs
  /\ lastScaleTime a + delay_for a (fst (calc jobs now a)) < now.
Proof.
  intros Hne.
  destruct (notEnoughSamples (set_samples a (samples a ++ [jobs]))) eqn:Hr.
  - rewrite (calc_not_ready int_indefinite _ _ _ Hr) in Hne. cbn [fst] in Hne. congruence.
  - rewrite (calc_ready int_indefinite _ _ _ Hr) in *.
    destruct (decide_cases a (desired a jobs) now) as [E|E]; [congruence|].
    rewrite E in *. split; [reflexivity|]. split; [reflexivity|].
    rewrite (decide_differs a _ now Hne) in E.
    destruct (Z.ltb_spec (lastScaleTime a + delay_for a (desired a jobs)) now);
      [assumption|congruence].
Qed.

(** What a turn sent is what the call returned, and not the current count. *)
Lemma turn_sent_some (jobs now sent n : Z) (a : Autoscaler) :
  snd (turn jobs now sent a) = Some n ->
  n = fst (calc jobs now a) /\ n <> instances a.
Proof.
  rewrite (turn_sent int_indefinite).
  destruct (Z.eqb_spec (fst (calc jobs now a)) (instances a)) as [|Hne]; [discriminate|].
  intros H. injection H as <-. split; [reflexivity|exact Hne].
Qed.

(** X2. A turn sends a count only when the window is full, the count is the
    clamped count of that window, it differs from the current count, and the
    clock is strictly after the last scaling event plus the delay of the
    direction. *)
Theorem send_is_sound (jobs now sent n : Z) (a : Autoscaler) :
  snd (turn jobs now sent a) = Some n ->
  notEnoughSamples (set_samples a (samples a ++ [jobs])) = false
  /\ n = desired a jobs
  /\ n <> instances a
  /\ lastScaleTime a + delay_for a n < now.
Proof.
  intros H. destruct (turn_sent_some _ _ _ _ _ H) as [-> Hne].
  destruct (calc_changes jobs now a Hne) as (Hr & Hd & Ht).
  repeat split; assumption.
Qed.

(** A call returns the current count when the clamped count of its window
    is the current count. *)
Lemma calc_current (jobs now : Z) (a : Autoscaler) :
  desired a jobs = instances a -> fst (calc jobs now a) = instances a.
Proof.
  intros Hd.
  destruct (notEnoughSamples (set_samples a (samples a ++ [jobs]))) eqn:Hr.
  - rewrite (calc_not_ready int_indefinite _ _ _ Hr). reflexivity.
  - rewrite (calc_ready int_indefinite _ _ _ Hr), Hd. unfold decide.
    rewrite Z.gtb_ltb, !Z.ltb_irrefl. reflexivity.
Qed.

Lemma turn_quiet (jobs now sent : Z) (a : Autoscaler) :
  fst (calc jobs now a) = instances a ->
  turn jobs now sent a = (snd (calc jobs now a), None).
Proof.
  intros E. unfold calculateInstancesLoop_body_with.
  pose proof (calc_instances int_indefinite jobs now a) as Hi.
  destruct (calc jobs now a) as [n a1]. cbn [fst snd] in *.
  rewrite Hi, E, Z.eqb_refl. reflexivity.
Qed.

(** A call changes the window only: the state it leaves is the state it
    found with the window of the tick, whatever the clock reads. *)
Lemma calc_state (jobs now : Z) (a : Autoscaler) :
  snd (calc jobs now a) = set_samples a (window a jobs).
Proof.
  unfold window_after, calculateDesiredInstances_with.
  destruct (notEnoughSamples _); [destruct a; reflexivity|].
  destruct (_ >? _); destruct a; reflexivity.
Qed.

(** X3. When the clamped count of the tick equals the current count, the
    turn sends nothing, whatever the clock reads, and changes the window
    only: the state after it is the state before it with the window of the
    tick, which is the old window with the sample appended and, when that
    makes more than [NumSamples], the oldest sample dropped. *)
Theorem no_send_when_desired_is_current (jobs now sent : Z) (a : Autoscaler) :
  desired a jobs = instances a ->
  turn jobs now sent a = (set_samples a (window a jobs), None)
  /\ window a jobs
     = (if NumSamples (config a) <? Z.of_nat (List.length (samples a)) + 1
        then tl (samples a ++ [jobs]) else samples a ++ [jobs]).
Proof.
  intros Hd. split.
  - rewrite <- (calc_state jobs now a). apply turn_quiet, calc_current, Hd.
  - unfold window_after. apply calc_samples.
Qed.

(** What a turn leaves in the state, by what it sent. *)
Lemma turn_state (jobs now sent : Z) (a : Autoscaler) :
  match snd (turn jobs now sent a) with
  | Some n => instances (fst (turn jobs now sent a)) = n
              /\ lastScaleTime (fst (turn jobs now sent a)) = sent
  | None => instances (fst (turn jobs now sent a)) = instances a
            /\ lastScaleTime (fst (turn jobs now sent a)) = lastScaleTime a
  end.
Proof.
  unfold calculateInstancesLoop_body_with.
  pose proof (calc_instances int_indefinite jobs now a) as Hi.
  pose proof (calc_lastScaleTime int_indefinite jobs now a) as Ht.
  destruct (calc jobs now a) as [n a1]. cbn [fst snd] in *.
  destruct (negb _); cbn [fst snd set_scaled instances lastScaleTime]; auto.
Qed.

Lemma last_cons_default (n d : Z) (l : list Z) : last (n :: l) d = last l n.
Proof.
  revert n d. induction l as [|x l IH]; intros n d; [reflexivity|].
  change (last (n :: x :: l) d) with (last (x :: l) d). rewrite (IH x d), (IH x n). reflexivity.
Qed.

(** Every count a run of the loop sends is a clamped count. *)
Lemma loop_sent_are_clamped (ticks : list (Redis * Z * Z)) : forall a : Autoscaler,
  Forall (fun n => exists raw : Z, n = clampInstances (config a) raw)
    (snd (fst (loop ticks a))).
Proof.
  induction ticks as [|[[r now] sent] rest IH]; intros a; [constructor|].
  cbn [calculateInstancesLoop]. rewrite body_with.
  set (jobs := fst (sampleJobs r)).
  pose proof (turn_config int_indefinite jobs now sent a) as Hc.
  specialize (IH (fst (turn jobs now sent a))). rewrite Hc in IH.
  destruct (loop rest (fst (turn jobs now sent a))) as [[a2 outs] lgs]. cbn [fst snd] in *.
  destruct (snd (turn jobs now sent a)) as [n|] eqn:E; [|exact IH].
  constructor; [|exact IH].
  destruct (turn_sent_some _ _ _ _ _ E) as [-> Hne].
  destruct (calc_changes jobs now a Hne) as (_ & -> & _).
  unfold desired_at. eexists. reflexivity.
Qed.

(** X4. With [MinInstances <= MaxInstances], every count a run of the loop
    sends on the channel lies between the two bounds. *)
Theorem loop_sent_within_bounds (ticks : list (Redis * Z * Z)) (a : Autoscaler) :
  MinInstances (config a) <= MaxInstances (config a) ->
  Forall (fun n => MinInstances (config a) <= n <= MaxInstances (config a))
    (snd (fst (loop ticks a))).
Proof.
  intros Hb. eapply Forall_impl; [|apply loop_sent_are_clamped].
  intros n [raw ->]. apply clampInstances_bounds. exact Hb.
Qed.

(** X5. After a run of the loop the instance count of the state is the last
    count sent, or the starting count when nothing was sent; and each count
    sent differs from the one the state held before it. *)
Theorem loop_tracks_last_sent (ticks : list (Redis * Z * Z)) : forall a : Autoscaler,
  instances (fst (fst (loop ticks a))) = last (snd (fst (loop ticks a))) (instances a)
  /\ changes (instances a) (snd (fst (loop ticks a))).
Proof.
  induction ticks as [|[[r now] sent] rest IH]; intros a; [split; reflexivity|].
  cbn [calculateInstancesLoop]. rewrite body_with.
  set (jobs := fst (sampleJobs r)).
  pose proof (turn_state jobs now sent a) as Hst.
  specialize (IH (fst (turn jobs now sent a))).
  destruct (loop rest (fst (turn jobs now sent a))) as [[a2 outs] lgs]. cbn [fst snd] in *.
  destruct (snd (turn jobs now sent a)) as [n|] eqn:E.
  - destruct Hst as [Hi _]. rewrite Hi in IH. destruct IH as [IH1 IH2].
    destruct (turn_sent_some _ _ _ _ _ E) as [_ Hne].
    split; [rewrite last_cons_default; exact IH1|]. cbn [changes]. split; assumption.
  - destruct Hst as [Hi _]. rewrite Hi in IH. exact IH.
Qed.

Lemma delay_for_min (a : Autoscaler) (d : Z) :
  Z.min (ScaleUpDelay (config a)) (ScaleDownDelay (config a)) <= delay_for a d.
Proof. unfold delay_for. destruct (d >? instances a); lia. Qed.

(** X6. In a run of the loop every count is sent at a turn whose clock is
    more than the smaller of the two delays after the clock recorded at the
    previous send (for the first one, after the starting time of the last
    scaling event); the counts of these turns are the counts sent. *)
Theorem loop_emissions_spaced (ticks : list (Redis * Z * Z)) : forall a : Autoscaler,
  spaced (Z.min (ScaleUpDelay (config a)) (ScaleDownDelay (config a)))
    (lastScaleTime a) (emissions int_indefinite ticks a)
  /\ map (fun e => fst (fst e)) (emissions int_indefinite ticks a)
     = snd (fst (loop ticks a)).
Proof.
  induction ticks as [|[[r now] sent] rest IH]; intros a; [split; reflexivity|].
  cbn [calculateInstancesLoop emissions]. rewrite body_with.
  set (jobs := fst (sampleJobs r)).
  pose proof (turn_state jobs now sent a) as Hst.
  pose proof (turn_config int_indefinite jobs now sent a) as Hc.
  specialize (IH (fst (turn jobs now sent a))). rewrite Hc in IH.
  destruct (loop rest (fst (turn jobs now sent a))) as [[a2 outs] lgs]. cbn [fst snd] in *.
  destruct (snd (turn jobs now sent a)) as [n|] eqn:E.
  - destruct Hst as [_ Ht]. rewrite Ht in IH. destruct IH as [IH1 IH2].
    destruct (turn_sent_some _ _ _ _ _ E) as [En Hne]. rewrite En in Hne.
    destruct (calc_changes jobs now a Hne) as (_ & _ & Hd). rewrite <- En in Hd.
    pose proof (delay_for_min a n).
    split; [cbn [spaced]; split; [lia|exact IH1] | cbn [map fst]; rewrite IH2; reflexivity].
  - destruct Hst as [_ Ht]. rewrite Ht in IH. exact IH.
Qed.

Lemma calc_keeps_empty (jobs now : Z) (b : Autoscaler) :
  NumSamples (config b) <= 0 -> samples b = [] -> samples (snd (calc jobs now b)) = [].
Proof.
  intros HN Hs. rewrite calc_samples, Hs. cbn [List.length app].
  destruct (Z.ltb_spec (NumSamples (config b)) (Z.of_nat 0 + 1)); [reflexivity|lia].
Qed.

Lemma run_keeps_empty (ticks : list (Z * Z * Z)) : forall b : Autoscaler,
  NumSamples (config b) <= 0 -> samples b = [] -> samples (run ticks b) = [].
Proof.
  induction ticks as [|[[j n] s] rest IH]; intros b HN Hs; [exact Hs|].
  cbn [calculateInstancesLoop_with]. apply IH.
  - rewrite turn_config. exact HN.
  - rewrite turn_samples. apply calc_keeps_empty; assumption.
Qed.

(** X7. With [NumSamples <= 0] no sample is ever kept: from the empty window
    of [init], after any run the window is empty, the window a tick works on
    is empty too, its average is a NaN, and the clamped count is the clamp of
    whatever [int] of a NaN is, whatever the samples were. *)
Theorem no_window_without_samples (cfg : AutoscalerConfig) (count : Z)
    (ticks : list (Z * Z * Z)) (jobs : Z) :
  NumSamples cfg <= 0 ->
  let a := run ticks (init_autoscaler cfg count) in
  samples a = []
  /\ window a jobs = []
  /\ average (window a jobs) = S754_nan
  /\ desired a jobs = clampInstances cfg (int_indefinite S754_nan).
Proof.
  intros HN a.
  assert (Hc : config a = cfg) by (unfold a; rewrite run_config; reflexivity).
  assert (Hs : samples a = []) by (apply run_keeps_empty; [exact HN | reflexivity]).
  assert (Hw : window a jobs = []) by (apply calc_keeps_empty; [rewrite Hc; exact HN | exact Hs]).
  repeat split; [exact Hs | exact Hw | rewrite Hw; reflexivity |].
  unfold desired_at. rewrite Hw, Hc. reflexivity.
Qed.

End Emissions.

(** ** The sample, for every redis *)

Section SampleTotal.

Lemma wrap64_in_int (z : Z) : in_int (wrap64 z).
Proof.
  unfold in_int, min_int, max_int, wrap64.
  pose proof (Z.mod_pos_bound (z + 2 ^ 63) (2 ^ 64) ltac:(lia)). lia.
Qed.

(** Wrapping an operand before an addition that wraps changes nothing. *)
Lemma wrap64_add_l (a b : Z) : wrap64 (wrap64 a + b) = wrap64 (a + b).
Proof.
  unfold wrap64. f_equal.
  replace ((a + 2 ^ 63) mod 2 ^ 64 - 2 ^ 63 + b + 2 ^ 63)
    with ((a + 2 ^ 63) mod 2 ^ 64 + b) by lia.
  rewrite Zplus_mod_idemp_l. f_equal. lia.
Qed.

Lemma wrap64_add_r (a b : Z) : wrap64 (a + wrap64 b) = wrap64 (a + b).
Proof. rewrite (Z.add_comm a), wrap64_add_l. f_equal. lia. Qed.

Variable r : Redis.

Lemma countActiveJobs_loop_value (workers : list string) : forall jobs : Z,
  in_int jobs ->
  fst (countActiveJobs_loop r workers jobs)
    = wrap64 (jobs + Z.of_nat (List.length (filter (lease_present r) workers))).
Proof.
  induction workers as [|w ws IH]; intros jobs Hj.
  - cbn. rewrite Z.add_0_r, wrap64_small; auto.
  - cbn [countActiveJobs_loop filter].
    destruct (snd (Get r (String.append "resque:worker:" w))) as [e|] eqn:E.
    + assert (Hl : lease_present r w = false) by (unfold lease_present; rewrite E; reflexivity).
      rewrite Hl. specialize (IH jobs Hj).
      destruct (countActiveJobs_loop r ws jobs) as [n lg]. cbn [fst] in *.
      destruct (is_nil e); exact IH.
    + assert (Hl : lease_present r w = true) by (unfold lease_present; rewrite E; reflexivity).
      rewrite Hl, IH by apply wrap64_in_int. unfold add64. rewrite wrap64_add_l.
      cbn [List.length]. f_equal. lia.
Qed.

Lemma countActiveJobs_loop_log (workers : list string) : forall jobs : Z,
  List.length (snd (countActiveJobs_loop r workers jobs))
    = List.length (filter (get_failed r) workers).
Proof.
  induction workers as [|w ws IH]; intros jobs; [reflexivity|].
  cbn [countActiveJobs_loop filter].
  destruct (snd (Get r (String.append "resque:worker:" w))) as [e|] eqn:E.
  - assert (Hg : get_failed r w = negb (is_nil e)) by (unfold get_failed; rewrite E; reflexivity).
    rewrite Hg. specialize (IH jobs).
    destruct (countActiveJobs_loop r ws jobs) as [n lg]. cbn [snd] in *.
    destruct (is_nil e); cbn [negb snd List.length]; rewrite IH; reflexivity.
  - assert (Hg : get_failed r w = false) by (unfold get_failed; rewrite E; reflexivity).
    rewrite Hg. apply IH.
Qed.

Lemma countPendingJobs_loop_value (queues : list string) : forall jobs : Z,
  in_int jobs ->
  fst (countPendingJobs_loop r queues jobs)
    = wrap64 (jobs + sum_list (map (fun q => fst (LLen r (String.append "resque:queue:" q)))
                                queues)).
Proof.
  induction queues as [|q qs IH]; intros jobs Hj.
  - cbn. rewrite Z.add_0_r, wrap64_small; auto.
  - cbn [countPendingJobs_loop map sum_list fold_right].
    destruct (LLen r (String.append "resque:queue:" q)) as [len err]. cbn [fst].
    specialize (IH (add64 jobs len) (wrap64_in_int _)).
    destruct (countPendingJobs_loop r qs (add64 jobs len)) as [n lg]. cbn [fst] in *.
    fold (sum_list (map (fun q => fst (LLen r (String.append "resque:queue:" q))) qs)).
    destruct err; cbn [fst]; rewrite IH; unfold add64; rewrite wrap64_add_l;
      f_equal; lia.
Qed.

Lemma countPendingJobs_loop_log (queues : list string) : forall jobs : Z,
  List.length (snd (countPendingJobs_loop r queues jobs))
    = List.length (filter (llen_failed r) queues).
Proof.
  induction queues as [|q qs IH]; intros jobs; [reflexivity|].
  cbn [countPendingJobs_loop filter]. unfold llen_failed at 1.
  destruct (LLen r (String.append "resque:queue:" q)) as [len err]. cbn [snd].
  specialize (IH (add64 jobs len)).
  destruct (countPendingJobs_loop r qs (add64 jobs len)) as [n lg]. cbn [snd] in *.
  destruct err; cbn [snd List.length]; rewrite IH; reflexivity.
Qed.

Lemma countActiveJobs_value :
  fst (countActiveJobs r) = wrap64 (active_jobs r).
Proof.
  unfold countActiveJobs, active_jobs, registered_workers.
  destruct (SMembers r "resque:workers") as [workers err]. cbn [fst].
  pose proof (countActiveJobs_loop_value workers 0 ltac:(unfold in_int, min_int, max_int; lia)) as H.
  destruct (countActiveJobs_loop r workers 0) as [n lg]. cbn [fst] in *. exact H.
Qed.

Lemma countPendingJobs_value :
  fst (countPendingJobs r) = wrap64 (returned_lengths r).
Proof.
  unfold countPendingJobs, returned_lengths, registered_queues.
  destruct (SMembers r "resque:queues") as [queues err]. cbn [fst].
  pose proof (countPendingJobs_loop_value queues 0 ltac:(unfold in_int, min_int, max_int; lia)) as H.
  destruct (countPendingJobs_loop r queues 0) as [n lg]. cbn [fst] in *. exact H.
Qed.

Lemma sampleJobs_fst :
  fst (sampleJobs r) = add64 (fst (countActiveJobs r)) (fst (countPendingJobs r)).
Proof.
  unfold sampleJobs. destruct (countActiveJobs r), (countPendingJobs r). reflexivity.
Qed.

(** X8. For every redis the sample is the number of workers whose key could
    be read plus the sum of what [LLen] returned for every registered queue,
    read or not, reduced to a 64-bit [int]: no read is skipped and nothing
    else is added. *)
Theorem sample_is_wrapped_total :
  fst (sampleJobs r) = wrap64 (active_jobs r + returned_lengths r).
Proof.
  rewrite sampleJobs_fst, countActiveJobs_value, countPendingJobs_value.
  unfold add64. rewrite wrap64_add_l, wrap64_add_r. reflexivity.
Qed.

(** X9. For every redis, counting the sample logs one message for each read
    that failed and no other: a set that could not be listed, a worker key
    read with an error other than [redis.Nil], a queue whose length could not
    be read. *)
Theorem sample_logs_failed_reads :
  List.length (snd (sampleJobs r)) = failed_reads r.
Proof.
  unfold sampleJobs, countActiveJobs, countPendingJobs, failed_reads, set_failed,
    registered_workers, registered_queues.
  destruct (SMembers r "resque:workers") as [workers errw].
  destruct (SMembers r "resque:queues") as [queues errq]. cbn [fst snd].
  pose proof (countActiveJobs_loop_log workers 0) as A.
  pose proof (countPendingJobs_loop_log queues 0) as P.
  destruct (countActiveJobs_loop r workers 0) as [na lga].
  destruct (countPendingJobs_loop r queues 0) as [np lgp]. cbn [fst snd] in *.
  rewrite !length_app, A, P. destruct errw, errq; cbn [List.length]; lia.
Qed.

(** X11. When both sets come back empty, as they do when redis cannot be
    reached, the sample is 0 and the only messages are those of the sets that
    could not be listed. *)
Theorem sample_of_empty_sets :
  registered_workers r = [] -> registered_queues r = [] ->
  fst (sampleJobs r) = 0
  /\ List.length (snd (sampleJobs r))
     = ((if set_failed r "resque:workers" then 1 else 0)
        + (if set_failed r "resque:queues" then 1 else 0))%nat.
Proof.
  intros Hw Hq. split.
  - rewrite sampleJobs_fst, countActiveJobs_value, countPendingJobs_value.
    unfold active_jobs, returned_lengths. rewrite Hw, Hq. reflexivity.
  - unfold sampleJobs, countActiveJobs, countPendingJobs, set_failed,
      registered_workers, registered_queues in *.
    destruct (SMembers r "resque:workers") as [workers errw].
    destruct (SMembers r "resque:queues") as [queues errq]. cbn [fst snd] in *.
    subst workers queues. cbn [countActiveJobs_loop countPendingJobs_loop].
    destruct errw, errq; reflexivity.
Qed.

End SampleTotal.

(** ** The sample, as the code counts it *)



(** ** The order of the sets *)

Lemma filter_length_ext {A : Type} (f g : A -> bool) (l : list A) :
  (forall x, f x = g x) -> List.length (filter f l) = List.length (filter g l).
Proof.
  intros Hfg. induction l as [|z l IHl]; [reflexivity|]. cbn [filter]. rewrite <- Hfg.
  destruct (f z); cbn [List.length]; rewrite IHl; reflexivity.
Qed.

Lemma filter_length_permutation {A : Type} (f : A -> bool) (l1 l2 : list A) :
  Permutation l1 l2 -> List.length (filter f l1) = List.length (filter f l2).
Proof.
  intros Hp. induction Hp as [|x l l' _ IH|x y l|l l' l'' _ IH1 _ IH2].
  - reflexivity.
  - cbn [filter]. destruct (f x); cbn [List.length]; rewrite IH; reflexivity.
  - cbn [filter]. destruct (f x), (f y); reflexivity.
  - congruence.
Qed.

Lemma sum_map_ext {A : Type} (f g : A -> Z) (l : list A) :
  (forall x, f x = g x) -> sum_list (map f l) = sum_list (map g l).
Proof.
  intros Hfg. unfold sum_list. induction l as [|z l IHl]; [reflexivity|].
  cbn [map fold_right]. rewrite IHl, Hfg. reflexivity.
Qed.

Lemma sum_map_permutation {A : Type} (f : A -> Z) (l1 l2 : list A) :
  Permutation l1 l2 -> sum_list (map f l1) = sum_list (map f l2).
Proof.
  intros Hp. unfold sum_list.
  induction Hp as [|x l l' _ IH|x y l|l l' l'' _ IH1 _ IH2].
  - reflexivity.
  - cbn [map fold_right]. rewrite IH. reflexivity.
  - cbn [map fold_right]. lia.
  - congruence.
Qed.

(** X10. The sample does not depend on the order in which redis lists the
    members of its two sets: two replies that list the same workers and the
    same queues in any order, and agree on every key and every length, give
    the same sample. *)
Theorem sample_order_independent (r1 r2 : Redis) :
  (forall key, Get r1 key = Get r2 key) ->
  (forall key, LLen r1 key = LLen r2 key) ->
  Permutation (registered_workers r1) (registered_workers r2) ->
  Permutation (registered_queues r1) (registered_queues r2) ->
  fst (sampleJobs r1) = fst (sampleJobs r2).
Proof.
  intros HG HL Pw Pq.
  rewrite !sampleJobs_fst, !countActiveJobs_value, !countPendingJobs_value.
  unfold active_jobs, returned_lengths.
  rewrite (filter_length_permutation (lease_present r1) _ _ Pw).
  rewrite (filter_length_ext (lease_present r1) (lease_present r2))
    by (intros w; unfold lease_present; rewrite HG; reflexivity).
  rewrite (sum_map_permutation _ _ _ Pq).
  rewrite (sum_map_ext _ (fun q => fst (LLen r2 (String.append "resque:queue:" q))))
    by (intros q; rewrite HL; reflexivity).
  reflexivity.
Qed.

(** ** The count before clamping, as an integer quotient *)

Section Quotient.

Variable int_indefinite : float64 -> Z.

Local Abbreviation raw := (rawDesiredInstances int_indefinite).

Lemma ceil_div_bracket (s d : Z) :
  0 < d -> (ceil_div s d - 1) * d < s <= ceil_div s d * d.
Proof.
  intros Hd. unfold ceil_div.
  pose proof (Z.div_mod (- s) d ltac:(lia)) as E.
  pose proof (Z.mod_pos_bound (- s) d Hd) as B.
  set (q := - s / d) in *. set (m := (- s) mod d) in *.
  replace ((- q - 1) * d) with (- (d * q) - d) by ring.
  replace (- q * d) with (- (d * q)) by ring. lia.
Qed.

Lemma ceil_div_le (s1 s2 d : Z) : 0 < d -> s1 <= s2 -> ceil_div s1 d <= ceil_div s2 d.
Proof.
  intros Hd Hs. unfold ceil_div.
  pose proof (Z.div_le_mono (- s2) (- s1) d Hd ltac:(lia)). lia.
Qed.

(** Within the range in which binary64 loses nothing, the count before
    clamping is the ceiling of the total over the window length times the
    number of workers per instance. *)
Lemma raw_desired_ceil_div (cfg : AutoscalerConfig) (xs : list Z) :
  xs <> [] ->
  Forall (fun x => 0 <= x) xs ->
  sum_list xs < 2 ^ 52 ->
  Z.of_nat (List.length xs) < 2 ^ 52 ->
  1 <= WorkersPerInstance cfg < 2 ^ 52 ->
  raw cfg xs
    = ceil_div (sum_list xs) (Z.of_nat (List.length xs) * WorkersPerInstance cfg).
Proof.
  intros Hne Hpos Hsum Hlen Hw.
  assert (Hn : 1 <= Z.of_nat (List.length xs)) by (destruct xs; [congruence | cbn [List.length]; lia]).
  pose proof (sum_nonneg xs Hpos) as Hs0. fold (sum_list xs) in Hs0.
  unfold rawDesiredInstances, average.
  rewrite (fold_left_add64_exact xs 0) by (auto; unfold max_int; lia).
  rewrite Z.add_0_l.
  set (s := sum_list xs) in *. set (n := Z.of_nat (List.length xs)) in *.
  set (w := WorkersPerInstance cfg) in *.
  pose proof (ceil_div_bracket s (n * w) ltac:(nia)) as [Hlo Hhi].
  destruct (Z.eq_dec s 0) as [Hz|Hz].
  - rewrite Hz in *.
    destruct (float64_of_int_exact n ltac:(lia)) as (my & ay & -> & _).
    destruct (float64_of_int_exact w ltac:(lia)) as (mw & aw & -> & _).
    reflexivity.
  - apply ceil_of_rounded_quotients; try lia.
Qed.

Lemma sum_list_le (xs ys : list Z) : Forall2 Z.le xs ys -> sum_list xs <= sum_list ys.
Proof. unfold sum_list. induction 1; cbn [fold_right] in *; lia. Qed.

Lemma clampInstances_le (cfg : AutoscalerConfig) (n m : Z) :
  n <= m -> clampInstances cfg n <= clampInstances cfg m.
Proof. intros H. rewrite !clampInstances_max_min. lia. Qed.

(** X12. More backlog never asks for fewer instances: of two windows of the
    same length with each sample of the first at most the matching sample of
    the second, within the range in which binary64 loses nothing, the first
    gives at most the count of the second, before and after clamping. *)
Theorem desired_monotone (cfg : AutoscalerConfig) (xs ys : list Z) :
  Forall2 Z.le xs ys ->
  xs <> [] ->
  Forall (fun x => 0 <= x) xs ->
  sum_list ys < 2 ^ 52 ->
  Z.of_nat (List.length ys) < 2 ^ 52 ->
  1 <= WorkersPerInstance cfg < 2 ^ 52 ->
  raw cfg xs <= raw cfg ys
  /\ clampInstances cfg (raw cfg xs) <= clampInstances cfg (raw cfg ys).
Proof.
  intros Hle Hne Hpos Hsum Hlen Hw.
  pose proof (sum_list_le xs ys Hle) as Hs.
  pose proof (Forall2_length Hle) as Hl.
  assert (Hposy : Forall (fun y => 0 <= y) ys).
  { clear - Hle Hpos. induction Hle; constructor; inversion Hpos; subst; [lia|auto]. }
  assert (Hney : ys <> []) by (destruct ys; [destruct xs; [congruence|discriminate]|discriminate]).
  assert (H : raw cfg xs <= raw cfg ys).
  { rewrite (raw_desired_ceil_div cfg xs), (raw_desired_ceil_div cfg ys); auto; try lia.
    rewrite Hl. apply ceil_div_le; [|exact Hs].
    destruct ys; [congruence|]. cbn [List.length]. nia. }
  split; [exact H | apply clampInstances_le; exact H].
Qed.

Lemma sum_list_repeat (c : Z) (n : nat) : sum_list (repeat c n) = Z.of_nat n * c.
Proof.
  unfold sum_list. induction n as [|n IH]; cbn [repeat fold_right] in *; [lia|]. rewrite IH. lia.
Qed.

Lemma ceil_div_scale (n c w : Z) : 0 < n -> 0 < w -> ceil_div (n * c) (n * w) = ceil_div c w.
Proof.
  intros Hn Hw. unfold ceil_div. replace (- (n * c)) with (n * - c) by lia.
  rewrite Z.div_mul_cancel_l by lia. reflexivity.
Qed.

(** X13. A steady backlog: a window of [n >= 1] samples all equal to
    [c >= 0], within the range in which binary64 loses nothing, gives the
    ceiling of [c] over the number of workers per instance before clamping,
    whatever the window length. *)
Theorem desired_of_steady_backlog (cfg : AutoscalerConfig) (c : Z) (n : nat) :
  (1 <= n)%nat ->
  0 <= c ->
  Z.of_nat n * c < 2 ^ 52 ->
  Z.of_nat n < 2 ^ 52 ->
  1 <= WorkersPerInstance cfg < 2 ^ 52 ->
  raw cfg (repeat c n) = ceil_div c (WorkersPerInstance cfg).
Proof.
  intros Hn Hc Hsum Hlen Hw.
  rewrite raw_desired_ceil_div.
  - rewrite sum_list_repeat, repeat_length. apply ceil_div_scale; lia.
  - destruct n; [lia|discriminate].
  - apply Forall_forall. intros x Hx. apply repeat_spec in Hx. lia.
  - rewrite sum_list_repeat. exact Hsum.
  - rewrite repeat_length. exact Hlen.
  - exact Hw.
Qed.


(** X15. When the read at startup succeeds with status 200 and the number
    read is a whole number [c] from 1 to below [2^53], [getInstanceCount]
    returns [c] itself and logs nothing: the count is not brought within
    [MinInstances] and [MaxInstances]. *)
Theorem getInstanceCount_reads_integer (cfg : AutoscalerConfig)
    (renderAPICall : string -> string -> string -> APIResult)
    (gjsonNum : string -> string -> float64) (c : Z) :
  let r := renderAPICall "GET" (String.append "/services/" (WorkerServiceId cfg)) "" in
  api_err r = None -> api_status r = StatusOK ->
  gjsonNum (api_body r) "serviceDetails.numInstances" = float64_of_int c ->
  1 <= c < 2 ^ 53 ->
  getInstanceCount int_indefinite cfg renderAPICall gjsonNum = (c, []).
Proof.
  intros r He Hs Hg Hc.
  unfold getInstanceCount. fold r. rewrite He, Hs, Hg. cbn [negb Z.eqb StatusOK Pos.eqb].
  rewrite int_of_float64_of_int by lia.
  destruct (float64_of_int_exact c Hc) as (m & a & -> & _). reflexivity.
Qed.

End Quotient.

(** ** The scaling goroutine *)

Lemma append_inj_l (p x y : string) : String.append p x = String.append p y -> x = y.
Proof. induction p as [|ch p IH]; cbn [String.append]; intros H; [exact H|]. injection H as H. auto. Qed.

Lemma append_length (x y : string) :
  String.length (String.append x y) = (String.length x + String.length y)%nat.
Proof. induction x as [|ch x IH]; cbn [String.append String.length]; [reflexivity|]. rewrite IH. reflexivity. Qed.

Lemma append_inj_r (x y s : string) : String.append x s = String.append y s -> x = y.
Proof.
  revert y. induction x as [|ch x IH]; intros [|ch' y] H; cbn [String.append] in H.
  - reflexivity.
  - apply (f_equal String.length) in H. cbn [String.length] in H. rewrite append_length in H. lia.
  - apply (f_equal String.length) in H. cbn [String.length] in H. rewrite append_length in H. lia.
  - injection H as -> H. f_equal. apply IH. exact H.
Qed.

(** The digits printed for a count read back as that count. *)
Lemma format_int_parse (n : Z) :
  option_map Z.of_int (NilZero.int_of_string (format_int n)) = Some n.
Proof.
  unfold format_int. rewrite NilZero.isi.
  - cbn [option_map]. rewrite DecimalZ.of_to. reflexivity.
  - destruct n; cbn [Z.to_int]; try discriminate.
    intros H. injection H as H. exact (DecimalPos.Unsigned.to_uint_nonnil _ H).
  - destruct n; cbn [Z.to_int]; try discriminate.
    intros H. injection H as H. exact (DecimalPos.Unsigned.to_uint_nonnil _ H).
Qed.

(** X16. The body of a scaling request determines the count asked for: the
    decimal digits printed read back as the count, and two counts with the
    same body are equal. *)
Theorem scale_body_determines_count (n m : Z) :
  option_map Z.of_int (NilZero.int_of_string (format_int n)) = Some n
  /\ (scale_body n = scale_body m <-> n = m).
Proof.
  split; [apply format_int_parse|]. split; [|intros ->; reflexivity].
  unfold scale_body. intros H.
  do 5 apply append_inj_l in H. apply append_inj_r in H.
  pose proof (format_int_parse n) as Hn. rewrite H, format_int_parse in Hn. congruence.
Qed.

(** X17. The scaling goroutine makes one call for each count it receives, in
    the order received: a POST to the scaling path of the service with the
    body of that count, whatever the earlier calls answered; it logs one line
    for each count and one more for each call that failed or was answered
    with a status other than 202. *)
Theorem scaleWorkersLoop_one_call_each (cfg : AutoscalerConfig)
    (received : list (Z * (string -> string -> string -> APIResult))) :
  fst (scaleWorkersLoop cfg received) = map (fun x => scale_request cfg (fst x)) received
  /\ List.length (snd (scaleWorkersLoop cfg received))
     = (List.length received
        + List.length
            (filter (fun x => scale_failed
                                (snd x "POST" (scale_path cfg) (scale_body (fst x))))
               received))%nat.
Proof.
  induction received as [|[n api] rest [IH1 IH2]]; [split; reflexivity|].
  cbn [scaleWorkersLoop map filter fst snd].
  set (F := filter _ rest) in *.
  unfold updateNumInstances, scale_failed.
  destruct (scaleWorkersLoop cfg rest) as [reqs lgs]. cbn [fst snd] in *.
  destruct (api_err (api "POST" (scale_path cfg) (scale_body n))) as [e|];
    [|destruct (negb (api_status (api "POST" (scale_path cfg) (scale_body n)) =? StatusAccepted))];
    cbn [fst snd]; rewrite IH1, length_app, IH2; cbn [List.length];
    (split; [reflexivity|lia]).
Qed.

(** X18. Every call the scaling goroutine makes for the counts a run of the
    decision loop sent asks for a count between [MinInstances] and
    [MaxInstances], when [MinInstances <= MaxInstances]. *)
Theorem requests_within_bounds (int_indefinite : float64 -> Z)
    (ticks : list (Redis * Z * Z)) (a : Autoscaler)
    (apis : list (string -> string -> string -> APIResult)) :
  MinInstances (config a) <= MaxInstances (config a) ->
  Forall (fun req => exists n : Z,
            MinInstances (config a) <= n <= MaxInstances (config a)
            /\ req = scale_request (config a) n)
    (fst (scaleWorkersLoop (config a)
            (combine (snd (fst (calculateInstancesLoop int_indefinite ticks a))) apis))).
Proof.
  intros Hb.
  pose proof (loop_sent_are_clamped int_indefinite ticks a) as Hs.
  revert apis. induction Hs as [|n outs [raw Hn] _ IH]; intros apis; [constructor|].
  destruct apis as [|api apis]; [constructor|].
  cbn [combine scaleWorkersLoop].
  specialize (IH apis).
  destruct (updateNumInstances (config a) api n) as [req lg] eqn:E.
  destruct (scaleWorkersLoop (config a) (combine outs apis)) as [reqs lgs]. cbn [fst] in *.
  constructor; [|exact IH]. exists n. split.
  - rewrite Hn. apply clampInstances_bounds. exact Hb.
  - unfold updateNumInstances in E. injection E as <- _. reflexivity.
Qed.

(** ** A steady backlog *)

Section Steady.

Variable int_indefinite : float64 -> Z.

Local Abbreviation calc := (calculateDesiredInstances_with int_indefinite).
Local Abbreviation turn := (calculateInstancesLoop_body_with int_indefinite).
Local Abbreviation loop := (calculateInstancesLoop int_indefinite).

Lemma tl_repeat_snoc (c : Z) (n : nat) :
  (1 <= n)%nat -> tl (repeat c n ++ [c]) = repeat c n.
Proof.
  destruct n as [|k]; [lia|]. intros _. cbn [repeat app tl].
  symmetry. apply repeat_cons.
Qed.

(** In a state whose window is full of one sample and whose instance count
    is the clamped count of that window, a turn with the same sample leaves
    the state as it is and sends nothing. *)
Lemma steady_turn (a : Autoscaler) (c : Z) (n : nat) (now sent : Z) :
  (1 <= n)%nat ->
  NumSamples (config a) = Z.of_nat n ->
  samples a = repeat c n ->
  instances a
    = clampInstances (config a) (rawDesiredInstances int_indefinite (config a) (repeat c n)) ->
  turn c now sent a = (a, None).
Proof.
  intros Hn HN Hs Hi.
  assert (Hsnd : forall t, snd (calc c t a) = a).
  { intros t. unfold calculateDesiredInstances_with, notEnoughSamples.
    cbn [set_samples samples config]. rewrite Hs, length_app, repeat_length, HN.
    cbn [List.length].
    replace (Z.of_nat (n + 1) <? Z.of_nat n) with false by (symmetry; apply Z.ltb_ge; lia).
    replace (Z.of_nat (n + 1) >? Z.of_nat n) with true
      by (symmetry; rewrite Z.gtb_ltb; apply Z.ltb_lt; lia).
    cbn [snd set_samples samples config instances lastScaleTime].
    rewrite tl_repeat_snoc by exact Hn. rewrite <- Hs. destruct a; reflexivity. }
  assert (Hd : desired_at int_indefinite a c = instances a).
  { unfold desired_at, window_after. rewrite (Hsnd 0), Hs. symmetry. exact Hi. }
  rewrite (turn_quiet int_indefinite c now sent a (calc_current int_indefinite c now a Hd)).
  rewrite Hsnd. reflexivity.
Qed.

(** X19. A steady backlog is quiet: in a state whose window holds
    [NumSamples] samples equal to [c] and whose instance count is the clamped
    count the decision computes for that window, any run of turns that all
    count [c] jobs sends nothing and leaves the state as it is, whatever the
    clocks read. *)
Theorem steady_backlog_is_quiet (a : Autoscaler) (c : Z) (n : nat)
    (ticks : list (Redis * Z * Z)) :
  (1 <= n)%nat ->
  NumSamples (config a) = Z.of_nat n ->
  samples a = repeat c n ->
  instances a
    = clampInstances (config a) (rawDesiredInstances int_indefinite (config a) (repeat c n)) ->
  Forall (fun t => fst (sampleJobs (fst (fst t))) = c) ticks ->
  fst (loop ticks a) = (a, []).
Proof.
  intros Hn HN Hs Hi Hall.
  induction Hall as [|[[r now] sent] rest Hr _ IH]; [reflexivity|].
  cbn [fst] in Hr. cbn [calculateInstancesLoop].
  rewrite (body_with int_indefinite), Hr.
  rewrite (steady_turn a c n now sent) by assumption. cbn [fst snd].
  destruct (loop rest a) as [[a2 outs] lgs]. cbn [fst] in IH.
  injection IH as -> ->. reflexivity.
Qed.

End Steady.


(** ** Warm-up and a zero divisor *)

Section Warmup.

Variable int_indefinite : float64 -> Z.

Local Abbreviation calc := (calculateDesiredInstances_with int_indefinite).
Local Abbreviation turn := (calculateInstancesLoop_body_with int_indefinite).
Local Abbreviation run := (calculateInstancesLoop_with int_indefinite).
Local Abbreviation desired := (desired_at int_indefinite).
Local Abbreviation raw := (rawDesiredInstances int_indefinite).

(** While the window is being filled the turns change the window only. *)
Lemma run_warmup (ticks : list (Z * Z * Z)) : forall a : Autoscaler,
  Z.of_nat (List.length (samples a)) + Z.of_nat (List.length ticks) < NumSamples (config a) ->
  run ticks a = set_samples a (samples a ++ pushed ticks).
Proof.
  induction ticks as [|[[jobs now] sent] rest IH]; intros a H.
  - cbn [calculateInstancesLoop_with pushed map]. rewrite app_nil_r. destruct a; reflexivity.
  - cbn [calculateInstancesLoop_with pushed map fst List.length] in *.
    assert (Hr : notEnoughSamples (set_samples a (samples a ++ [jobs])) = true).
    { apply Z.ltb_lt. cbn [set_samples samples config]. rewrite length_app. cbn [List.length]. lia. }
    unfold calculateInstancesLoop_body_with at 1.
    rewrite (calc_not_ready int_indefinite _ _ _ Hr). cbn [instances set_samples fst].
    rewrite Z.eqb_refl. cbn [negb fst].
    rewrite IH.
    + cbn [set_samples samples config instances lastScaleTime].
      rewrite <- app_assoc. reflexivity.
    + cbn [set_samples samples config]. rewrite length_app. cbn [List.length]. lia.
Qed.

(** X20. Warm-up: from the state [init] builds, the first [NumSamples - 1]
    turns fill the window and leave the instance count and the zero time of
    the last scaling event as they were; the turn after them sends the clamped
    count of the first full window exactly when it differs from the starting
    count and the clock reads more than the delay of the direction. *)
Theorem first_decision_after_warmup (cfg : AutoscalerConfig) (count : Z)
    (ticks : list (Z * Z * Z)) (jobs now sent : Z) :
  Z.of_nat (List.length ticks) + 1 = NumSamples cfg ->
  let a := run ticks (init_autoscaler cfg count) in
  a = set_samples (init_autoscaler cfg count) (pushed ticks)
  /\ window_after int_indefinite a jobs = pushed ticks ++ [jobs]
  /\ snd (turn jobs now sent a)
     = if desired a jobs =? count then None
       else if delay_for a (desired a jobs) <? now then Some (desired a jobs)
       else None.
Proof.
  intros HN a.
  assert (Ha : a = set_samples (init_autoscaler cfg count) (pushed ticks)).
  { unfold a. rewrite run_warmup; [reflexivity|].
    cbn [init_autoscaler samples config List.length]. lia. }
  assert (Hr : notEnoughSamples (set_samples a (samples a ++ [jobs])) = false).
  { rewrite Ha. apply Z.ltb_ge. cbn [set_samples samples config init_autoscaler].
    rewrite length_app, pushed_length. cbn [List.length]. lia. }
  assert (Hw : window_after int_indefinite a jobs = pushed ticks ++ [jobs]).
  { unfold window_after. rewrite calc_samples, Ha.
    cbn [set_samples samples config init_autoscaler]. rewrite pushed_length.
    destruct (Z.ltb_spec (NumSamples cfg) (Z.of_nat (List.length ticks) + 1)); [lia|reflexivity]. }
  split; [exact Ha|]. split; [exact Hw|].
  rewrite (turn_sent int_indefinite), (calc_ready int_indefinite _ _ _ Hr).
  assert (Hi : instances a = count) by (rewrite Ha; reflexivity).
  assert (Ht : lastScaleTime a = 0) by (rewrite Ha; reflexivity).
  destruct (Z.eqb_spec (desired a jobs) count) as [E|E].
  - unfold decide. rewrite Hi, E, Z.gtb_ltb, !Z.ltb_irrefl. cbn [andb].
    rewrite Z.eqb_refl. reflexivity.
  - rewrite decide_differs by (rewrite Hi; exact E). rewrite Ht, Z.add_0_l, Hi.
    destruct (delay_for a (desired a jobs) <? now); [|rewrite Z.eqb_refl; reflexivity].
    destruct (Z.eqb_spec (desired a jobs) count); [contradiction|reflexivity].
Qed.

(** X21. With [WORKERS_PER_INSTANCE=0] and a window whose total is positive
    and below [2^53], the division by the number of workers gives the positive
    infinity, so the count before clamping is whatever [int] of that infinity
    is, whatever the samples were. *)
Theorem raw_desired_without_workers (cfg : AutoscalerConfig) (xs : list Z) :
  WorkersPerInstance cfg = 0 ->
  Forall (fun x => 0 <= x) xs ->
  1 <= sum_list xs < 2 ^ 53 ->
  Z.of_nat (List.length xs) < 2 ^ 53 ->
  raw cfg xs = int_indefinite (S754_infinity false).
Proof.
  intros Hw Hpos Hsum Hlen.
  assert (Hn : 1 <= Z.of_nat (List.length xs)).
  { destruct xs; [cbn in Hsum; lia | cbn [List.length]; lia]. }
  unfold rawDesiredInstances, average.
  rewrite (fold_left_add64_exact xs 0) by (auto; unfold max_int; lia).
  rewrite Z.add_0_l, Hw.
  destruct (float64_of_int_exact (sum_list xs) Hsum) as (mx & ax & -> & Hax & _ & Hnx).
  destruct (float64_of_int_exact (Z.of_nat (List.length xs)) ltac:(lia))
    as (my & ay & -> & Hay & _ & Hny).
  unfold float64_div.
  destruct (SFdiv_normal false false mx my (- ax) (- ay) Hnx Hny ltac:(lia))
    as (m & j & -> & _).
  reflexivity.
Qed.

End Warmup.

(** * The properties at concrete inputs *)

(** Scenario A: with the default options a sample of 7 gives 7 instances once
    the scale-up delay has passed. *)
Example scenario_scale_up :
  calculateInstancesLoop_body_with amd64_indefinite 7 60000000001 60000000002 fresh
  = (set_scaled (set_samples fresh [7]) 7 60000000002, Some 7).
Proof. vm_compute. reflexivity. Qed.

(** Scenario B: a drop to one job right after that changes nothing. *)
Example scenario_scale_down_suppressed :
  calculateInstancesLoop_body_with amd64_indefinite 1 60000000003 60000000004
    (set_scaled (set_samples fresh [7]) 7 60000000002)
  = (set_scaled (set_samples fresh [1]) 7 60000000002, None).
Proof. vm_compute. reflexivity. Qed.

(** Scenario C: three samples of 4 with two workers per instance. *)
Example scenario_average :
  average [4; 4; 4] = float64_of_int 4
  /\ rawDesiredInstances amd64_indefinite config3 [4; 4; 4] = 2.
Proof. by_compute. Qed.

(** Scenario D: a count of 80 is clamped to the maximum of 50. *)
Example scenario_clamp_max : clampInstances default_config 80 = 50.
Proof. reflexivity. Qed.

Example one_half_is_one_over_two :
  float64_div (float64_of_int 1) (float64_of_int 2) = one_half.
Proof. vm_compute. reflexivity. Qed.

(** C1, as stated, fails at the boundary: with the default options, two
    instances, a full window asking for 7 and the clock exactly at the last
    scaling event plus the scale-up delay, nothing is sent; and likewise with
    7 instances, a window asking for 2 and the clock exactly at the last
    scaling event plus the scale-down delay. *)
Lemma hysteresis_boundary_not_emitted :
  (notEnoughSamples (set_samples fresh (samples fresh ++ [7])) = false
   /\ desired_at amd64_indefinite fresh 7 = 7
   /\ instances fresh < 7
   /\ 60000000000 >= lastScaleTime fresh + ScaleUpDelay (config fresh)
   /\ calculateInstancesLoop_body_with amd64_indefinite 7 60000000000 60000000000 fresh
      = (set_samples fresh [7], None))
  /\ (notEnoughSamples (set_samples (set_scaled fresh 7 0) (samples fresh ++ [1])) = false
      /\ desired_at amd64_indefinite (set_scaled fresh 7 0) 1 = 2
      /\ 2 < instances (set_scaled fresh 7 0)
      /\ 600000000000 >= lastScaleTime (set_scaled fresh 7 0)
                         + ScaleDownDelay (config (set_scaled fresh 7 0))
      /\ calculateInstancesLoop_body_with amd64_indefinite 1 600000000000 600000000000
           (set_scaled fresh 7 0)
         = (set_samples (set_scaled fresh 7 0) [1], None)).
Proof. by_compute. Qed.

Lemma hysteresis_strictly_after_witness :
  notEnoughSamples (set_samples fresh (samples fresh ++ [7])) = false
  /\ desired_at amd64_indefinite fresh 7 <> instances fresh
  /\ ((snd (calculateInstancesLoop_body_with amd64_indefinite 7 60000000001 60000000002 fresh)
       = Some (desired_at amd64_indefinite fresh 7)
       <-> lastScaleTime fresh + delay_for fresh (desired_at amd64_indefinite fresh 7)
           < 60000000001)
      /\ (snd (calculateInstancesLoop_body_with amd64_indefinite 7 60000000001 60000000002 fresh) = None
          <-> 60000000001
              <= lastScaleTime fresh + delay_for fresh (desired_at amd64_indefinite fresh 7))).
Proof.
  assert (H1 : notEnoughSamples (set_samples fresh (samples fresh ++ [7])) = false)
    by (vm_compute; reflexivity).
  assert (H2 : desired_at amd64_indefinite fresh 7 <> instances fresh)
    by (vm_compute; discriminate).
  exact (conj H1 (conj H2
    (hysteresis_strictly_after amd64_indefinite 7 60000000001 60000000002 fresh H1 H2))).
Defined.

Lemma desired_within_bounds_witness :
  0 < MinInstances default_config <= MaxInstances default_config
  /\ MinInstances default_config <= clampInstances default_config 80
     <= MaxInstances default_config.
Proof.
  assert (H : 0 < MinInstances default_config <= MaxInstances default_config)
    by (cbn; lia).
  exact (conj H (proj1 (desired_within_bounds amd64_indefinite default_config H) 80)).
Defined.

Lemma smoother_ready_and_bounded_witness :
  1 <= NumSamples config3
  /\ (samples (calculateInstancesLoop_with amd64_indefinite [(4, 1, 1); (4, 2, 2)] (init_autoscaler config3 2))
      = last_n (NumSamples config3) (pushed [(4, 1, 1); (4, 2, 2)])
      /\ Z.of_nat (List.length
           (samples (calculateInstancesLoop_with amd64_indefinite [(4, 1, 1); (4, 2, 2)]
                       (init_autoscaler config3 2))))
         <= NumSamples config3
      /\ (notEnoughSamples
            (set_samples
               (calculateInstancesLoop_with amd64_indefinite [(4, 1, 1); (4, 2, 2)] (init_autoscaler config3 2))
               (samples (calculateInstancesLoop_with amd64_indefinite [(4, 1, 1); (4, 2, 2)]
                           (init_autoscaler config3 2)) ++ [4])) = true
          <-> Z.of_nat (List.length [(4, 1, 1); (4, 2, 2)]) + 1 < NumSamples config3)
      /\ Z.of_nat (List.length
           (window_after amd64_indefinite
              (calculateInstancesLoop_with amd64_indefinite [(4, 1, 1); (4, 2, 2)] (init_autoscaler config3 2))
              4))
         <= NumSamples config3).
Proof.
  assert (H : 1 <= NumSamples config3) by (cbn; lia).
  exact (conj H
    (smoother_ready_and_bounded amd64_indefinite config3 2 [(4, 1, 1); (4, 2, 2)] 4 H)).
Defined.

Lemma not_ready_returns_current_witness :
  Z.of_nat (List.length (samples (init_autoscaler config3 2) ++ [4]))
    < NumSamples (config (init_autoscaler config3 2))
  /\ calculateDesiredInstances_with amd64_indefinite 4 5 (init_autoscaler config3 2)
     = (instances (init_autoscaler config3 2),
        set_samples (init_autoscaler config3 2) (samples (init_autoscaler config3 2) ++ [4]))
  /\ calculateInstancesLoop_body_with amd64_indefinite 4 5 6 (init_autoscaler config3 2)
     = (set_samples (init_autoscaler config3 2) (samples (init_autoscaler config3 2) ++ [4]),
        None).
Proof.
  assert (H : Z.of_nat (List.length (samples (init_autoscaler config3 2) ++ [4]))
              < NumSamples (config (init_autoscaler config3 2))) by (cbn; lia).
  exact (conj H
    (not_ready_returns_current amd64_indefinite 4 5 6 (init_autoscaler config3 2) H)).
Defined.



Lemma getInstanceCount_read_failure_witness :
  (api_err (api_unreachable "GET"
              (String.append "/services/" (WorkerServiceId default_config)) "") <> None
   \/ api_status (api_unreachable "GET"
                    (String.append "/services/" (WorkerServiceId default_config)) "")
      <> StatusOK)
  /\ fst (getInstanceCount amd64_indefinite default_config api_unreachable
            (gjson_const (float64_of_int 9))) = MinInstances default_config
  /\ fst (getInstanceCount amd64_indefinite default_config api_unavailable
            (gjson_const (float64_of_int 9))) = MinInstances default_config.
Proof.
  assert (H1 : api_err (api_unreachable "GET"
                 (String.append "/services/" (WorkerServiceId default_config)) "") <> None
               \/ api_status (api_unreachable "GET"
                    (String.append "/services/" (WorkerServiceId default_config)) "")
                  <> StatusOK)
    by (left; cbn; discriminate).
  assert (H2 : api_err (api_unavailable "GET"
                 (String.append "/services/" (WorkerServiceId default_config)) "") <> None
               \/ api_status (api_unavailable "GET"
                    (String.append "/services/" (WorkerServiceId default_config)) "")
                  <> StatusOK)
    by (right; cbn; discriminate).
  exact (conj H1 (conj
    (proj1 (getInstanceCount_read_failure amd64_indefinite default_config api_unreachable
              (gjson_const (float64_of_int 9)) H1))
    (proj1 (getInstanceCount_read_failure amd64_indefinite default_config api_unavailable
              (gjson_const (float64_of_int 9)) H2)))).
Defined.

(** C9, as stated, fails: with the default options and a reply of status 200
    in which the number of instances reads as one half, which is above zero,
    [getInstanceCount] returns 0; and with [MIN_INSTANCES=0] it returns 0
    whenever it falls back. *)
Lemma getInstanceCount_returns_zero :
  api_err (api_ok "GET" (String.append "/services/" (WorkerServiceId default_config)) "")
    = None
  /\ api_status (api_ok "GET" (String.append "/services/" (WorkerServiceId default_config)) "")
     = StatusOK
  /\ float64_gt one_half (S754_zero false) = true
  /\ 0 < MinInstances default_config <= MaxInstances default_config
  /\ fst (getInstanceCount amd64_indefinite default_config api_ok (gjson_const one_half)) = 0
  /\ fst (getInstanceCount amd64_indefinite config_min0 api_ok
            (gjson_const (S754_zero false))) = 0.
Proof. by_compute. Qed.

Lemma getInstanceCount_read_success_witness :
  api_err (api_ok "GET" (String.append "/services/" (WorkerServiceId default_config)) "")
    = None
  /\ api_status (api_ok "GET" (String.append "/services/" (WorkerServiceId default_config)) "")
     = StatusOK
  /\ (float64_not_positive (S754_zero false) = true
      /\ getInstanceCount amd64_indefinite default_config api_ok
           (gjson_const (S754_zero false)) = (MinInstances default_config, []))
  /\ (float64_not_positive (float64_of_int (-4)) = true
      /\ getInstanceCount amd64_indefinite default_config api_ok
           (gjson_const (float64_of_int (-4))) = (MinInstances default_config, []))
  /\ (float64_not_positive S754_nan = true
      /\ getInstanceCount amd64_indefinite default_config api_ok
           (gjson_const S754_nan) = (MinInstances default_config, []))
  /\ (float64_trunc (float64_of_int 3) = Some 3 /\ 1 <= 3 <= max_int
      /\ getInstanceCount amd64_indefinite default_config api_ok
           (gjson_const (float64_of_int 3)) = (3, []))
  /\ (0 < MinInstances default_config
      /\ 0 < fst (getInstanceCount amd64_indefinite default_config api_ok
                    (gjson_const (S754_zero false)))).
Proof.
  assert (Hz : 1 <= 3 <= max_int) by (split; discriminate).
  assert (Hmin : 0 < MinInstances default_config) by reflexivity.
  pose proof (getInstanceCount_read_success amd64_indefinite default_config api_ok
                (gjson_const (S754_zero false)) eq_refl eq_refl) as (F0 & _ & P0).
  pose proof (getInstanceCount_read_success amd64_indefinite default_config api_ok
                (gjson_const (float64_of_int (-4))) eq_refl eq_refl) as (F1 & _ & _).
  pose proof (getInstanceCount_read_success amd64_indefinite default_config api_ok
                (gjson_const S754_nan) eq_refl eq_refl) as (F2 & _ & _).
  pose proof (getInstanceCount_read_success amd64_indefinite default_config api_ok
                (gjson_const (float64_of_int 3)) eq_refl eq_refl) as (_ & I3 & _).
  exact (conj eq_refl (conj eq_refl
    (conj (conj eq_refl (F0 eq_refl))
    (conj (conj eq_refl (F1 eq_refl))
    (conj (conj eq_refl (F2 eq_refl))
    (conj (conj eq_refl (conj Hz (I3 3 eq_refl Hz)))
          (conj Hmin (P0 Hmin (or_introl eq_refl))))))))).
Defined.

(** C6, as stated, fails for a large sample: binary64 has no number
    [2^53 + 1], so with the default options the window holding that one
    sample gives [2^53] before clamping, where the exact ceiling is
    [2^53 + 1]. *)
Lemma raw_desired_loses_large_sample :
  Forall (fun x => 0 <= x) [9007199254740993]
  /\ 1 <= WorkersPerInstance default_config
  /\ rawDesiredInstances amd64_indefinite default_config [9007199254740993]
     = 9007199254740992
  /\ exact_raw_desired default_config [9007199254740993] = 9007199254740993.
Proof.
  split; [repeat constructor; discriminate|]. split; [discriminate|].
  split; vm_compute; reflexivity.
Qed.

Lemma raw_desired_is_exact_ceiling_witness :
  [4; 4; 4] <> []
  /\ Forall (fun x => 0 <= x) [4; 4; 4]
  /\ sum_list [4; 4; 4] < 2 ^ 52
  /\ Z.of_nat (List.length [4; 4; 4]) < 2 ^ 52
  /\ 1 <= WorkersPerInstance config3 < 2 ^ 52
  /\ rawDesiredInstances amd64_indefinite config3 [4; 4; 4]
     = exact_raw_desired config3 [4; 4; 4].
Proof.
  assert (H1 : [4; 4; 4] <> []) by discriminate.
  assert (H2 : Forall (fun x => 0 <= x) [4; 4; 4]) by (repeat constructor; discriminate).
  assert (H3 : sum_list [4; 4; 4] < 2 ^ 52) by reflexivity.
  assert (H4 : Z.of_nat (List.length [4; 4; 4]) < 2 ^ 52) by reflexivity.
  assert (H5 : 1 <= WorkersPerInstance config3 < 2 ^ 52)
    by (split; [discriminate | reflexivity]).
  exact (conj H1 (conj H2 (conj H3 (conj H4 (conj H5
    (raw_desired_is_exact_ceiling amd64_indefinite config3 [4; 4; 4] H1 H2 H3 H4 H5)))))).
Defined.

(** * The further properties at concrete inputs *)

Lemma clampInstances_crossed_bounds_witness :
  MaxInstances config_crossed < MinInstances config_crossed
  /\ clampInstances config_crossed 10 = MinInstances config_crossed.
Proof.
  assert (H : MaxInstances config_crossed < MinInstances config_crossed) by reflexivity.
  exact (conj H (clampInstances_crossed_bounds config_crossed 10 H)).
Defined.

Lemma send_is_sound_witness :
  snd (calculateInstancesLoop_body_with amd64_indefinite 7 60000000001 60000000002 fresh)
    = Some 7
  /\ notEnoughSamples (set_samples fresh (samples fresh ++ [7])) = false
  /\ 7 = desired_at amd64_indefinite fresh 7
  /\ 7 <> instances fresh
  /\ lastScaleTime fresh + delay_for fresh 7 < 60000000001.
Proof.
  assert (H : snd (calculateInstancesLoop_body_with amd64_indefinite 7 60000000001
                     60000000002 fresh) = Some 7) by (vm_compute; reflexivity).
  exact (conj H (send_is_sound amd64_indefinite 7 60000000001 60000000002 7 fresh H)).
Defined.

Lemma no_send_when_desired_is_current_witness :
  desired_at amd64_indefinite fresh 2 = instances fresh
  /\ calculateInstancesLoop_body_with amd64_indefinite 2 60000000001 60000000002 fresh
     = (set_samples fresh (window_after amd64_indefinite fresh 2), None)
  /\ window_after amd64_indefinite fresh 2
     = (if NumSamples (config fresh) <? Z.of_nat (List.length (samples fresh)) + 1
        then tl (samples fresh ++ [2]) else samples fresh ++ [2]).
Proof.
  assert (H : desired_at amd64_indefinite fresh 2 = instances fresh)
    by (vm_compute; reflexivity).
  exact (conj H
    (no_send_when_desired_is_current amd64_indefinite 2 60000000001 60000000002 fresh H)).
Defined.

Lemma loop_sent_within_bounds_witness :
  MinInstances (config fresh) <= MaxInstances (config fresh)
  /\ Forall (fun n => MinInstances (config fresh) <= n <= MaxInstances (config fresh))
       (snd (fst (calculateInstancesLoop amd64_indefinite
                    [(redis_example, 60000000001, 60000000002);
                     (redis_down, 60000000003, 60000000004)] fresh))).
Proof.
  assert (H : MinInstances (config fresh) <= MaxInstances (config fresh)) by discriminate.
  exact (conj H (loop_sent_within_bounds amd64_indefinite _ fresh H)).
Defined.

Lemma no_window_without_samples_witness :
  NumSamples config_nosamples <= 0
  /\ samples (calculateInstancesLoop_with amd64_indefinite [(7, 1, 2); (9, 3, 4)]
                (init_autoscaler config_nosamples 2)) = []
  /\ desired_at amd64_indefinite
       (calculateInstancesLoop_with amd64_indefinite [(7, 1, 2); (9, 3, 4)]
          (init_autoscaler config_nosamples 2)) 11
     = clampInstances config_nosamples (amd64_indefinite S754_nan).
Proof.
  assert (H : NumSamples config_nosamples <= 0) by discriminate.
  pose proof (no_window_without_samples amd64_indefinite config_nosamples 2
                [(7, 1, 2); (9, 3, 4)] 11 H) as (E1 & _ & _ & E2).
  exact (conj H (conj E1 E2)).
Defined.

Lemma sample_of_empty_sets_witness :
  registered_workers redis_down = [] /\ registered_queues redis_down = []
  /\ fst (sampleJobs redis_down) = 0
  /\ List.length (snd (sampleJobs redis_down)) = 2%nat.
Proof.
  exact (conj eq_refl (conj eq_refl (sample_of_empty_sets redis_down eq_refl eq_refl))).
Defined.

Lemma sample_order_independent_witness :
  (forall key, Get redis_example key = Get redis_example_reordered key)
  /\ (forall key, LLen redis_example key = LLen redis_example_reordered key)
  /\ Permutation (registered_workers redis_example)
       (registered_workers redis_example_reordered)
  /\ Permutation (registered_queues redis_example)
       (registered_queues redis_example_reordered)
  /\ fst (sampleJobs redis_example) = fst (sampleJobs redis_example_reordered).
Proof.
  assert (H1 : forall key, Get redis_example key = Get redis_example_reordered key)
    by (intros key; reflexivity).
  assert (H2 : forall key, LLen redis_example key = LLen redis_example_reordered key)
    by (intros key; reflexivity).
  assert (H3 : Permutation (registered_workers redis_example)
                 (registered_workers redis_example_reordered)).
  { change (Permutation ["w1"; "w2"; "w3"] ["w3"; "w1"; "w2"])%string.
    eapply perm_trans; [apply perm_skip, perm_swap | apply perm_swap]. }
  assert (H4 : Permutation (registered_queues redis_example)
                 (registered_queues redis_example_reordered)).
  { change (Permutation ["high"; "low"] ["low"; "high"])%string. apply perm_swap. }
  exact (conj H1 (conj H2 (conj H3 (conj H4
    (sample_order_independent redis_example redis_example_reordered H1 H2 H3 H4))))).
Defined.

Lemma desired_monotone_witness :
  Forall2 Z.le [1; 2; 3] [2; 2; 5]
  /\ [1; 2; 3] <> []
  /\ Forall (fun x => 0 <= x) [1; 2; 3]
  /\ sum_list [2; 2; 5] < 2 ^ 52
  /\ Z.of_nat (List.length [2; 2; 5]) < 2 ^ 52
  /\ 1 <= WorkersPerInstance config3 < 2 ^ 52
  /\ rawDesiredInstances amd64_indefinite config3 [1; 2; 3]
     <= rawDesiredInstances amd64_indefinite config3 [2; 2; 5]
  /\ clampInstances config3 (rawDesiredInstances amd64_indefinite config3 [1; 2; 3])
     <= clampInstances config3 (rawDesiredInstances amd64_indefinite config3 [2; 2; 5]).
Proof.
  assert (H1 : Forall2 Z.le [1; 2; 3] [2; 2; 5]) by (repeat constructor; discriminate).
  assert (H2 : [1; 2; 3] <> []) by discriminate.
  assert (H3 : Forall (fun x => 0 <= x) [1; 2; 3]) by (repeat constructor; discriminate).
  assert (H4 : sum_list [2; 2; 5] < 2 ^ 52) by reflexivity.
  assert (H5 : Z.of_nat (List.length [2; 2; 5]) < 2 ^ 52) by reflexivity.
  assert (H6 : 1 <= WorkersPerInstance config3 < 2 ^ 52)
    by (split; [discriminate | reflexivity]).
  exact (conj H1 (conj H2 (conj H3 (conj H4 (conj H5 (conj H6
    (desired_monotone amd64_indefinite config3 _ _ H1 H2 H3 H4 H5 H6))))))).
Defined.

Lemma desired_of_steady_backlog_witness :
  (1 <= 3)%nat
  /\ 0 <= 5
  /\ Z.of_nat 3 * 5 < 2 ^ 52
  /\ Z.of_nat 3 < 2 ^ 52
  /\ 1 <= WorkersPerInstance config3 < 2 ^ 52
  /\ rawDesiredInstances amd64_indefinite config3 (repeat 5 3) = 3.
Proof.
  assert (H1 : (1 <= 3)%nat) by (repeat constructor).
  assert (H2 : 0 <= 5) by discriminate.
  assert (H3 : Z.of_nat 3 * 5 < 2 ^ 52) by reflexivity.
  assert (H4 : Z.of_nat 3 < 2 ^ 52) by reflexivity.
  assert (H5 : 1 <= WorkersPerInstance config3 < 2 ^ 52)
    by (split; [discriminate | reflexivity]).
  exact (conj H1 (conj H2 (conj H3 (conj H4 (conj H5
    (desired_of_steady_backlog amd64_indefinite config3 5 3 H1 H2 H3 H4 H5)))))).
Defined.


Lemma getInstanceCount_reads_integer_witness :
  api_err (api_ok "GET" (String.append "/services/" (WorkerServiceId default_config)) "")
    = None
  /\ api_status (api_ok "GET" (String.append "/services/" (WorkerServiceId default_config)) "")
     = StatusOK
  /\ 1 <= 100 < 2 ^ 53
  /\ MaxInstances default_config < 100
  /\ getInstanceCount amd64_indefinite default_config api_ok
       (gjson_const (float64_of_int 100)) = (100, []).
Proof.
  assert (H : 1 <= 100 < 2 ^ 53) by (split; [discriminate | reflexivity]).
  exact (conj eq_refl (conj eq_refl (conj H (conj eq_refl
    (getInstanceCount_reads_integer amd64_indefinite default_config api_ok
       (gjson_const (float64_of_int 100)) 100 eq_refl eq_refl eq_refl H))))).
Defined.

Lemma requests_within_bounds_witness :
  MinInstances (config fresh) <= MaxInstances (config fresh)
  /\ Forall (fun req => exists n : Z,
               MinInstances (config fresh) <= n <= MaxInstances (config fresh)
               /\ req = scale_request (config fresh) n)
       (fst (scaleWorkersLoop (config fresh)
               (combine
                  (snd (fst (calculateInstancesLoop amd64_indefinite
                               [(redis_example, 60000000001, 60000000002)] fresh)))
                  [api_accepted]))).
Proof.
  assert (H : MinInstances (config fresh) <= MaxInstances (config fresh)) by discriminate.
  exact (conj H (requests_within_bounds amd64_indefinite _ fresh [api_accepted] H)).
Defined.

Lemma steady_backlog_is_quiet_witness :
  (1 <= 3)%nat
  /\ NumSamples (config steady) = Z.of_nat 3
  /\ samples steady = repeat 4 3
  /\ instances steady
     = clampInstances (config steady)
         (rawDesiredInstances amd64_indefinite (config steady) (repeat 4 3))
  /\ Forall (fun t => fst (sampleJobs (fst (fst t))) = 4)
       [(redis_four, 1, 2); (redis_four, 700000000000, 700000000001)]
  /\ fst (calculateInstancesLoop amd64_indefinite
            [(redis_four, 1, 2); (redis_four, 700000000000, 700000000001)] steady)
     = (steady, []).
Proof.
  assert (H1 : (1 <= 3)%nat) by (repeat constructor).
  assert (H4 : instances steady
               = clampInstances (config steady)
                   (rawDesiredInstances amd64_indefinite (config steady) (repeat 4 3)))
    by (vm_compute; reflexivity).
  assert (H9 : Forall (fun t => fst (sampleJobs (fst (fst t))) = 4)
                 [(redis_four, 1, 2); (redis_four, 700000000000, 700000000001)])
    by (repeat constructor).
  exact (conj H1 (conj eq_refl (conj eq_refl (conj H4 (conj H9
    (steady_backlog_is_quiet amd64_indefinite steady 4 3 _ H1 eq_refl eq_refl H4 H9)))))).
Defined.

Lemma first_decision_after_warmup_witness :
  Z.of_nat (List.length [(4, 1, 2); (4, 3, 4)]) + 1 = NumSamples config3
  /\ calculateInstancesLoop_with amd64_indefinite [(4, 1, 2); (4, 3, 4)]
       (init_autoscaler config3 7)
     = set_samples (init_autoscaler config3 7) [4; 4]
  /\ snd (calculateInstancesLoop_body_with amd64_indefinite 4 600000000001 600000000002
            (calculateInstancesLoop_with amd64_indefinite [(4, 1, 2); (4, 3, 4)]
               (init_autoscaler config3 7)))
     = Some 2.
Proof.
  pose proof (first_decision_after_warmup amd64_indefinite config3 7
                [(4, 1, 2); (4, 3, 4)] 4 600000000001 600000000002 eq_refl)
    as (E1 & _ & E2).
  exact (conj eq_refl (conj E1 E2)).
Defined.

Lemma raw_desired_without_workers_witness :
  WorkersPerInstance config_noworkers = 0
  /\ Forall (fun x => 0 <= x) [3; 4]
  /\ 1 <= sum_list [3; 4] < 2 ^ 53
  /\ Z.of_nat (List.length [3; 4]) < 2 ^ 53
  /\ rawDesiredInstances amd64_indefinite config_noworkers [3; 4]
     = amd64_indefinite (S754_infinity false).
Proof.
  assert (H2 : Forall (fun x => 0 <= x) [3; 4]) by (repeat constructor; discriminate).
  assert (H3 : 1 <= sum_list [3; 4] < 2 ^ 53) by (split; [discriminate | reflexivity]).
  assert (H4 : Z.of_nat (List.length [3; 4]) < 2 ^ 53) by reflexivity.
  exact (conj eq_refl (conj H2 (conj H3 (conj H4
    (raw_desired_without_workers amd64_indefinite config_noworkers [3; 4]
       eq_refl H2 H3 H4))))).
Defined.
